(** * The preset weight downloader (docker/presets/download_script.go)

    A shallow embedding of the command-line utility that downloads the
    falcon and llama-2 weight files, and the properties of its URL
    resolver, its downloader and its entry point.

    Go strings are byte sequences: they are [string] here (a list of
    8-bit [ascii]).  Go's [int] and [int64] are [Z]; where the source
    computes on [int64] the wrap-around is written out ([wrap64]).
    Effects (the log, standard output, the file system, the network,
    [os.Exit]) are an event trace paired with a result, threaded by a
    small monad; what the operating system and the network answer is
    read from a record of oracles, [OS]. *)

From Stdlib Require Import String Ascii List ZArith Lia Bool.
Import ListNotations.

Local Open Scope string_scope.
Local Open Scope Z_scope.

Infix "=?s" := String.eqb (at level 70, no associativity).

(** ** fmt: the two verbs the program uses *)

Module Fmt.

(** ['0' + d] for a decimal digit [d]. *)
Definition digit (d : Z) : ascii := ascii_of_nat (48 + Z.to_nat d).

(** The digit loop of fmt's integer formatting, least significant
    digit first, prepending to [acc].  An unsigned 64-bit value has at
    most 20 digits, which bounds the loop. *)
Fixpoint digits (fuel : nat) (u : Z) (acc : string) : string :=
  match fuel with
  | O => acc
  | S fuel' =>
      if u <? 10 then String (digit u) acc
      else digits fuel' (u / 10) (String (digit (u mod 10)) acc)
  end.

(** Left padding with ['0'] up to [prec] digits. *)
Fixpoint zeros (k : nat) (s : string) : string :=
  match k with
  | O => s
  | S k' => String "0"%char (zeros k' s)
  end.

Definition pad (prec : nat) (s : string) : string :=
  zeros (prec - String.length s) s.

(** [%05d]: width 5 with the zero flag.  The sign takes one column of
    the width, so a negative value is padded to 4 digits. *)
Definition d05 (v : Z) : string :=
  let negative := v <? 0 in
  let u := Z.abs v in
  let prec := if negative then 4%nat else 5%nat in
  let body := pad prec (digits 20 u EmptyString) in
  if negative then String "-"%char body else body.

End Fmt.

(** ** The process: events, results and the monad that threads them *)

Record Request := {
  Method : string;
  URL : string;
  Header : list (string * string)
}.

(** What [client.Do] hands back: the declared length (-1 when it is
    unknown), the chunks that successive reads of the body return, and
    the error that ends the body when it is not a clean end of file. *)
Record Response := {
  ContentLength : Z;
  Body : list (list Byte.byte);
  BodyErr : option string
}.

Inductive StatResult := StatFound | StatNotExist | StatOtherError.

(** The answers of the operating system and of the network.  An error
    is the text that [%v] prints for it; [None] is [nil]. *)
Record OS := {
  os_Args : list string;
  os_Environ : string -> option string;
  os_Stat : string -> StatResult;
  os_MkdirAll : string -> Z -> option string;
  os_Create : string -> option string;
  file_Write : string -> list Byte.byte -> option string;
  http_NewRequest : string -> string -> option string;
  client_Do : Request -> Response + string
}.

(** What the process does to the world, one event per call:
    [os.Stat], [os.MkdirAll], [os.Getenv], a line of the log, a
    progress line on standard output, the call of the resolver (a
    mark in the trace, it has no effect of its own), [wg.Add(1)] with
    the [go] statement, [wg.Wait()], [os.Create], [client.Do], a write
    to the file, and the three deferred calls of [downloadFile]. *)
Inductive Event :=
| EvStat (path : string)
| EvMkdirAll (path : string) (perm : Z)
| EvGetenv (name : string)
| EvLog (msg : string)
| EvProgress (name : string) (read total : Z)
| EvResolve (linkType baseURL modelVersion : string)
| EvGo (folderPath url token : string)
| EvWait
| EvCreate (path : string)
| EvDo (req : Request)
| EvFileWrite (path : string) (p : list Byte.byte)
| EvBodyClose
| EvFileClose (path : string)
| EvWgDone.

(** How a piece of code ends: it returns a value, the process exits
    ([log.Fatal] and [log.Fatalf] print and call [os.Exit(1)], deferred
    calls do not run), or the runtime panics. *)
Inductive Res (A : Type) :=
| Ret (a : A)
| Exit (code : Z)
| Panic (msg : string).

Arguments Ret {A} a.
Arguments Exit {A} code.
Arguments Panic {A} msg.

Definition M (A : Type) : Type := (list Event * Res A)%type.

Definition ret {A} (a : A) : M A := ([], Ret a).

Definition bind {A B} (m : M A) (k : A -> M B) : M B :=
  match m with
  | (t, Ret a) => let (t', r) := k a in ((t ++ t')%list, r)
  | (t, Exit c) => (t, Exit c)
  | (t, Panic msg) => (t, Panic msg)
  end.

Notation "x <- m ;; k" := (bind m (fun x => k))
  (at level 61, m at next level, right associativity).
Notation "m ;;; k" := (bind m (fun _ => k))
  (at level 61, right associativity).

Definition emit (e : Event) : M unit := ([e], Ret tt).

Definition log_Fatal {A} (msg : string) : M A := ([EvLog msg], Exit 1).

Definition trace {A} (m : M A) : list Event := fst m.
Definition result {A} (m : M A) : Res A := snd m.

(** A slice index out of range panics. *)
Definition index (args : list string) (i : nat) : M string :=
  match nth_error args i with
  | Some a => ret a
  | None => ([], Panic "index out of range")
  end.

(** ** The URL resolver *)

Definition PublicLink : string := "public".
Definition PrivateLink : string := "private".

Definition falconCommonURLs (modelVersion : string) : list string :=
  [ "https://huggingface.co/" ++ modelVersion ++ "/raw/main/config.json";
    "https://huggingface.co/" ++ modelVersion ++ "/raw/main/pytorch_model.bin.index.json";
    "https://huggingface.co/" ++ modelVersion ++ "/raw/main/tokenizer.json";
    "https://huggingface.co/" ++ modelVersion ++ "/raw/main/tokenizer_config.json";
    "https://huggingface.co/" ++ modelVersion ++ "/raw/main/special_tokens_map.json";
    "https://huggingface.co/" ++ modelVersion ++ "/raw/main/configuration_falcon.py";
    "https://huggingface.co/" ++ modelVersion ++ "/raw/main/generation_config.json";
    "https://huggingface.co/" ++ modelVersion ++ "/raw/main/modeling_falcon.py" ].

Definition shardName (i count : Z) : string :=
  "pytorch_model-" ++ Fmt.d05 i ++ "-of-" ++ Fmt.d05 count ++ ".bin".

(** [for i := 1; i <= count; i++]: [Z.to_nat count] rounds, none when
    [count <= 0]. *)
Definition falconModelURLs (modelVersion : string) (count : Z) : list string :=
  map (fun i : nat =>
         "https://huggingface.co/" ++ modelVersion ++ "/resolve/main/"
           ++ shardName (Z.of_nat i) count)
      (seq 1 (Z.to_nat count)).

Definition getPrivateURLsForModel (baseURL modelVersion : string) : M (list string) :=
  if (modelVersion =?s "llama-2-7b") || (modelVersion =?s "llama-2-7b-chat") then
    ret [ baseURL ++ modelVersion ++ "/consolidated.00.pth";
          baseURL ++ modelVersion ++ "/params.json" ]
  else if (modelVersion =?s "llama-2-13b") || (modelVersion =?s "llama-2-13b-chat") then
    ret [ baseURL ++ modelVersion ++ "/consolidated.00.pth";
          baseURL ++ modelVersion ++ "/consolidated.01.pth";
          baseURL ++ modelVersion ++ "/params.json" ]
  else if (modelVersion =?s "llama-2-70b") || (modelVersion =?s "llama-2-70b-chat") then
    ret [ baseURL ++ modelVersion ++ "/consolidated.00.pth";
          baseURL ++ modelVersion ++ "/consolidated.01.pth";
          baseURL ++ modelVersion ++ "/consolidated.03.pth";
          baseURL ++ modelVersion ++ "/consolidated.04.pth";
          baseURL ++ modelVersion ++ "/consolidated.05.pth";
          baseURL ++ modelVersion ++ "/consolidated.06.pth";
          baseURL ++ modelVersion ++ "/consolidated.07.pth";
          baseURL ++ modelVersion ++ "/params.json" ]
  else
    log_Fatal ("Invalid model version for private link: " ++ modelVersion).

Definition getURLsForModel (linkType baseURL modelVersion : string) : M (list string) :=
  if linkType =?s PublicLink then
    if (modelVersion =?s "tiiuae/falcon-7b") || (modelVersion =?s "tiiuae/falcon-7b-instruct") then
      ret (falconModelURLs modelVersion 2 ++ falconCommonURLs modelVersion)%list
    else if (modelVersion =?s "tiiuae/falcon-40b") || (modelVersion =?s "tiiuae/falcon-40b-instruct") then
      ret (falconModelURLs modelVersion 9 ++ falconCommonURLs modelVersion)%list
    else
      log_Fatal ("Invalid model version for public link: " ++ modelVersion)
  else
    getPrivateURLsForModel baseURL modelVersion.

(** ** path/filepath on Unix, where the separator is the slash *)

Module Filepath.

Definition IsPathSeparator (c : ascii) : bool := Ascii.eqb c "/"%char.

(** The path without its trailing separators. *)
Fixpoint stripTrailing (path : string) : string :=
  match path with
  | EmptyString => EmptyString
  | String c rest =>
      match stripTrailing rest with
      | EmptyString => if IsPathSeparator c then EmptyString else String c EmptyString
      | rest' => String c rest'
      end
  end.

(** What follows the last separator; [None] when there is none. *)
Fixpoint afterLastSeparator (path : string) : option string :=
  match path with
  | EmptyString => None
  | String c rest =>
      match afterLastSeparator rest with
      | Some e => Some e
      | None => if IsPathSeparator c then Some rest else None
      end
  end.

(** [filepath.Base]: the last element of the path; ["."] for the empty
    path, ["/"] for a path of separators only. *)
Definition Base (path : string) : string :=
  if path =?s "" then "."
  else
    let path := stripTrailing path in
    let path := match afterLastSeparator path with
                | Some e => e
                | None => path
                end in
    if path =?s "" then "/" else path.

(** The elements between separators, empty ones included. *)
Fixpoint split (path : string) : list string :=
  match path with
  | EmptyString => [EmptyString]
  | String c rest =>
      if IsPathSeparator c then EmptyString :: split rest
      else match split rest with
           | e :: es => String c e :: es
           | [] => [String c EmptyString]
           end
  end.

(** The output buffer of [filepath.Clean] as elements: the number of
    leading [..] elements that could not be resolved, and the real
    elements written after them, the last one first. *)
Definition Buf : Type := (nat * list string)%type.

(** One element of the path.  Empty and [.] elements are dropped; [..]
    removes the last real element, is kept in front when there is none
    and the path is not rooted, and is dropped at the root. *)
Definition cleanStep (rooted : bool) (out : Buf) (e : string) : Buf :=
  let (dotdot, elems) := out in
  if (e =?s "") || (e =?s ".") then out
  else if e =?s ".." then
    match elems with
    | _ :: elems' => (dotdot, elems')
    | [] => if rooted then out else (S dotdot, [])
    end
  else (dotdot, e :: elems).

Definition render (rooted : bool) (out : Buf) : string :=
  let (dotdot, elems) := out in
  let s := (if rooted then "/" else "")
             ++ String.concat "/" (repeat ".." dotdot ++ rev elems)%list in
  if s =?s "" then "." else s.

Definition isRooted (path : string) : bool :=
  match path with
  | String c _ => IsPathSeparator c
  | EmptyString => false
  end.

(** What [render] puts before the last element. *)
Definition before (rooted : bool) (l : list string) : string :=
  (if rooted then "/" else "")
    ++ match l with
       | [] => ""
       | _ :: _ => String.concat "/" l ++ "/"
       end.

(** [filepath.Clean]: the shortest equivalent path by lexical
    processing. *)
Definition Clean (path : string) : string :=
  if path =?s "" then "."
  else
    let rooted := isRooted path in
    render rooted (fold_left (cleanStep rooted) (split path) (0%nat, [])).

(** [filepath.Join]: leading empty elements are ignored, the rest is
    joined with separators and cleaned; all empty gives the empty
    string. *)
Fixpoint Join (elem : list string) : string :=
  match elem with
  | [] => ""
  | e :: rest => if e =?s "" then Join rest else Clean (String.concat "/" elem)
  end.

End Filepath.

(** ** The downloader *)

Definition getFilenameFromURL (url : string) : string := Filepath.Base url.

(** Reduction of an integer to the range of int64. *)
Definition wrap64 (z : Z) : Z := (z + 2 ^ 63) mod 2 ^ 64 - 2 ^ 63.

(** [read] is a pointer to a counter of [downloadFile] in the source;
    nothing else reads or writes that counter, so it is a field. *)
Record WriteCounter := {
  filename : string;
  total : Z;
  read : Z;
  lastReported : Z
}.

(** [WriteCounter.Write]: the events it prints, the counter after the
    call, and the pair it returns.  The progress line also carries a
    percentage computed in floating point, which is left out of the
    event. *)
Definition WriteCounter_Write (wc : WriteCounter) (p : list Byte.byte)
  : list Event * WriteCounter * (Z * option string) :=
  let n := Z.of_nat (length p) in
  let read' := wrap64 (read wc + n) in
  let onePercent := Z.quot (total wc) 100 in
  if wrap64 (read' - lastReported wc) >=? onePercent then
    ([EvProgress (Filepath.Base (filename wc)) read' (total wc)],
     {| filename := filename wc; total := total wc;
        read := read'; lastReported := read' |},
     (n, None))
  else
    ([],
     {| filename := filename wc; total := total wc;
        read := read'; lastReported := lastReported wc |},
     (n, None)).

(** [io.Copy(out, io.TeeReader(resp.Body, wc))]: every non-empty chunk
    read from the body goes to the counter first and to the file next;
    the result is the error that stopped the copy, if any. *)
Fixpoint io_Copy (os : OS) (fp : string) (wc : WriteCounter)
    (chunks : list (list Byte.byte)) (bodyErr : option string) : M (option string) :=
  match chunks with
  | [] => ret bodyErr
  | p :: rest =>
      match p with
      | [] => io_Copy os fp wc rest bodyErr
      | _ :: _ =>
          let '(printed, wc', _) := WriteCounter_Write wc p in
          (printed, Ret tt) ;;;
          emit (EvFileWrite fp p) ;;;
          match file_Write os fp p with
          | Some err => ret (Some err)
          | None => io_Copy os fp wc' rest bodyErr
          end
      end
  end.

Definition Header_Add (req : Request) (key value : string) : Request :=
  {| Method := Method req; URL := URL req;
     Header := (Header req ++ [(key, value)])%list |}.

(** The three deferred calls run on return, the last deferred first;
    they do not run when [log.Fatal] exits the process. *)
Definition downloadFile (os : OS) (folderPath url token : string) : M unit :=
  let fileName := getFilenameFromURL url in
  let fp := Filepath.Join [folderPath; fileName] in
  emit (EvCreate fp) ;;;
  match os_Create os fp with
  | Some err => log_Fatal err
  | None =>
      match http_NewRequest os "GET" url with
      | Some err => log_Fatal err
      | None =>
          let req := {| Method := "GET"; URL := url; Header := [] |} in
          let req := if negb (token =?s "")
                     then Header_Add req "Authorization" ("Bearer " ++ token)
                     else req in
          emit (EvDo req) ;;;
          match client_Do os req with
          | inr err => log_Fatal err
          | inl resp =>
              let wc := {| filename := fp; total := ContentLength resp;
                           read := 0; lastReported := 0 |} in
              err <- io_Copy os fp wc (Body resp) (BodyErr resp) ;;
              match err with
              | Some e => log_Fatal e
              | None =>
                  emit EvBodyClose ;;; emit (EvFileClose fp) ;;; emit EvWgDone
              end
          end
      end
  end.

(** ** The entry point *)

Definition ensureDirExists (os : OS) (dirName : string) : M unit :=
  emit (EvStat dirName) ;;;
  match os_Stat os dirName with
  | StatNotExist =>
      emit (EvMkdirAll dirName 493) ;;;
      match os_MkdirAll os dirName 493 with
      | Some err => log_Fatal ("Failed to create directory: " ++ err)
      | None => ret tt
      end
  | _ => ret tt
  end.

(** [os.Getenv]: the empty string for a variable that is not set. *)
Definition os_Getenv (os : OS) (key : string) : string :=
  match os_Environ os key with
  | Some v => v
  | None => ""
  end.

Fixpoint forEach {A} (l : list A) (body : A -> M unit) : M unit :=
  match l with
  | [] => ret tt
  | x :: rest => body x ;;; forEach rest body
  end.

(** [main] up to [wg.Wait()].  [EvResolve] marks the call of
    [getURLsForModel]; [EvGo] is [wg.Add(1)] and the [go] statement;
    [EvWait] is the call of [wg.Wait()].  What the tasks do, and when
    the wait returns, is the subject of [Sched] below. *)
Definition main (os : OS) : M unit :=
  let Args := os_Args os in
  if (length Args <? 4)%nat then
    arg0 <- index Args 0 ;;
    log_Fatal ("Usage: " ++ arg0 ++
      " <link_type> <model_version> <output_directory> [external_IP] [external_port]")
  else
    linkType <- index Args 1 ;;
    modelVersion <- index Args 2 ;;
    outputDirectory <- index Args 3 ;;
    ensureDirExists os outputDirectory ;;;
    tokenAndBase <-
      (if linkType =?s PrivateLink then
         if negb (length Args =? 6)%nat then
           arg0 <- index Args 0 ;;
           log_Fatal ("Usage (private link): " ++ arg0 ++
             " <link_type> <model_version> <output_directory> <external_IP> <external_port>")
         else
           emit (EvGetenv "AUTH_TOKEN_ENV_VAR") ;;;
           let token := os_Getenv os "AUTH_TOKEN_ENV_VAR" in
           if token =?s "" then log_Fatal "AUTH_TOKEN_ENV_VAR not set!"
           else
             externalIP <- index Args 4 ;;
             externalPort <- index Args 5 ;;
             ret (token, "http://" ++ externalIP ++ ":" ++ externalPort ++ "/download/")
       else ret ("", "")) ;;
    let '(token, baseURL) := tokenAndBase in
    emit (EvResolve linkType baseURL modelVersion) ;;;
    urls <- getURLsForModel linkType baseURL modelVersion ;;
    forEach urls (fun url => emit (EvGo outputDirectory url token)) ;;;
    emit EvWait.

(** ** The process as a whole: the main goroutine and its tasks

    The main goroutine runs the trace of [main]; an [EvGo] in it adds
    one to the wait group and starts a task that runs the trace of
    [downloadFile]; [EvWait] blocks while the counter is not zero.  The
    scheduler picks who moves next.  The process exits when [main]
    returns (code 0), or as soon as any goroutine ends in [log.Fatal]
    (code 1) or in a panic (code 2). *)

Module Sched.

Record Task := {
  t_folder : string;
  t_url : string;
  t_token : string;
  todo : list Event;
  ending : Res unit
}.

Record State := {
  main_todo : list Event;
  wg : Z;
  tasks : list Task;
  exited : option Z;
  out : list Event
}.

Inductive Choice := RunMain | RunTask (i : nat).

Definition exitCode (r : Res unit) : Z :=
  match r with
  | Ret _ => 0
  | Exit c => c
  | Panic _ => 2
  end.

Definition spawn (os : OS) (folderPath url token : string) : Task :=
  let m := downloadFile os folderPath url token in
  {| t_folder := folderPath; t_url := url; t_token := token;
     todo := trace m; ending := result m |}.

Definition init (os : OS) : State :=
  {| main_todo := trace (main os); wg := 0; tasks := [];
     exited := None; out := [] |}.

Fixpoint replace {A} (l : list A) (i : nat) (x : A) : list A :=
  match l, i with
  | [], _ => []
  | _ :: l', O => x :: l'
  | y :: l', S i' => y :: replace l' i' x
  end.

Definition stepMain (os : OS) (s : State) : option State :=
  match main_todo s with
  | [] =>
      Some {| main_todo := []; wg := wg s; tasks := tasks s;
              exited := Some (exitCode (result (main os))); out := out s |}
  | EvWait :: rest =>
      if wg s =? 0 then
        Some {| main_todo := rest; wg := wg s; tasks := tasks s;
                exited := None; out := (out s ++ [EvWait])%list |}
      else None
  | EvGo folderPath url token :: rest =>
      Some {| main_todo := rest; wg := wg s + 1;
              tasks := (tasks s ++ [spawn os folderPath url token])%list;
              exited := None;
              out := (out s ++ [EvGo folderPath url token])%list |}
  | e :: rest =>
      Some {| main_todo := rest; wg := wg s; tasks := tasks s;
              exited := None; out := (out s ++ [e])%list |}
  end.

Definition isWgDone (e : Event) : bool :=
  match e with
  | EvWgDone => true
  | _ => false
  end.

Definition stepTask (s : State) (i : nat) : option State :=
  match nth_error (tasks s) i with
  | None => None
  | Some t =>
      match todo t with
      | [] =>
          match ending t with
          | Ret _ => None
          | r => Some {| main_todo := main_todo s; wg := wg s; tasks := tasks s;
                         exited := Some (exitCode r); out := out s |}
          end
      | e :: rest =>
          let t' := {| t_folder := t_folder t; t_url := t_url t;
                       t_token := t_token t; todo := rest; ending := ending t |} in
          Some {| main_todo := main_todo s;
                  wg := if isWgDone e then wg s - 1 else wg s;
                  tasks := replace (tasks s) i t';
                  exited := None; out := (out s ++ [e])%list |}
      end
  end.

(** One move; [None] when the chosen goroutine cannot move or the
    process has exited. *)
Definition step (os : OS) (s : State) (c : Choice) : option State :=
  match exited s with
  | Some _ => None
  | None =>
      match c with
      | RunMain => stepMain os s
      | RunTask i => stepTask s i
      end
  end.

Fixpoint exec (os : OS) (s : State) (cs : list Choice) : option State :=
  match cs with
  | [] => Some s
  | c :: cs' =>
      match step os s c with
      | Some s' => exec os s' cs'
      | None => None
      end
  end.

Definition reachable (os : OS) (s : State) : Prop :=
  exists cs, exec os (init os) cs = Some s.

Definition finished (t : Task) : Prop :=
  todo t = [] /\ ending t = Ret tt.

Definition launch (t : Task) : string * string * string :=
  (t_folder t, t_url t, t_token t).

(** A task that has not called [wg.Done()]. *)
Definition pending (t : Task) : bool :=
  match ending t, todo t with
  | Ret _, [] => false
  | _, _ => true
  end.

Definition owed (ts : list Task) : Z :=
  Z.of_nat (length (filter pending ts)).

(** The shape of a task at any time: one that will return has
    [wg.Done()] as its very last event, one that will exit never
    reaches it, and the exit is [os.Exit(1)]. *)
Definition taskInv (t : Task) : Prop :=
  match ending t with
  | Ret _ =>
      todo t = []
      \/ exists before, todo t = (before ++ [EvWgDone])%list
                        /\ existsb isWgDone before = false
  | Exit c => c = 1 /\ existsb isWgDone (todo t) = false
  | Panic _ => False
  end.

End Sched.

(** The download tasks that a trace of [main] starts, in order. *)
Fixpoint launches (t : list Event) : list (string * string * string) :=
  match t with
  | [] => []
  | EvGo folderPath url token :: t' => (folderPath, url, token) :: launches t'
  | _ :: t' => launches t'
  end.

(** ** What the claims are stated with *)

(** The suffixes, after ["https://huggingface.co/<model>"], of the URLs
    of a falcon model with two shards. *)
Definition falcon7bFiles : list string :=
  [ "/resolve/main/pytorch_model-00001-of-00002.bin";
    "/resolve/main/pytorch_model-00002-of-00002.bin";
    "/raw/main/config.json";
    "/raw/main/pytorch_model.bin.index.json";
    "/raw/main/tokenizer.json";
    "/raw/main/tokenizer_config.json";
    "/raw/main/special_tokens_map.json";
    "/raw/main/configuration_falcon.py";
    "/raw/main/generation_config.json";
    "/raw/main/modeling_falcon.py" ].

(** The same for a falcon model with nine shards. *)
Definition falcon40bFiles : list string :=
  [ "/resolve/main/pytorch_model-00001-of-00009.bin";
    "/resolve/main/pytorch_model-00002-of-00009.bin";
    "/resolve/main/pytorch_model-00003-of-00009.bin";
    "/resolve/main/pytorch_model-00004-of-00009.bin";
    "/resolve/main/pytorch_model-00005-of-00009.bin";
    "/resolve/main/pytorch_model-00006-of-00009.bin";
    "/resolve/main/pytorch_model-00007-of-00009.bin";
    "/resolve/main/pytorch_model-00008-of-00009.bin";
    "/resolve/main/pytorch_model-00009-of-00009.bin";
    "/raw/main/config.json";
    "/raw/main/pytorch_model.bin.index.json";
    "/raw/main/tokenizer.json";
    "/raw/main/tokenizer_config.json";
    "/raw/main/special_tokens_map.json";
    "/raw/main/configuration_falcon.py";
    "/raw/main/generation_config.json";
    "/raw/main/modeling_falcon.py" ].

Definition onHub (modelVersion : string) (files : list string) : list string :=
  map (fun f => "https://huggingface.co/" ++ modelVersion ++ f) files.

(** The files of the 70b llama models, as the source lists them. *)
Definition llama70bFiles : list string :=
  [ "consolidated.00.pth"; "consolidated.01.pth"; "consolidated.03.pth";
    "consolidated.04.pth"; "consolidated.05.pth"; "consolidated.06.pth";
    "consolidated.07.pth"; "params.json" ].

Definition onServer (baseURL modelVersion : string) (files : list string) : list string :=
  map (fun f => baseURL ++ modelVersion ++ "/" ++ f) files.

Definition llama7bFiles : list string :=
  [ "consolidated.00.pth"; "params.json" ].

Definition llama13bFiles : list string :=
  [ "consolidated.00.pth"; "consolidated.01.pth"; "params.json" ].

Definition isFalcon (modelVersion : string) : bool :=
  existsb (String.eqb modelVersion)
    [ "tiiuae/falcon-7b"; "tiiuae/falcon-7b-instruct";
      "tiiuae/falcon-40b"; "tiiuae/falcon-40b-instruct" ].

Definition isLlama (modelVersion : string) : bool :=
  existsb (String.eqb modelVersion)
    [ "llama-2-7b"; "llama-2-7b-chat"; "llama-2-13b"; "llama-2-13b-chat";
      "llama-2-70b"; "llama-2-70b-chat" ].

(** The accepted set of model versions of a link type. *)
Definition accepted (linkType modelVersion : string) : bool :=
  if linkType =?s "public" then isFalcon modelVersion else isLlama modelVersion.

Definition isGo (e : Event) : bool :=
  match e with
  | EvGo _ _ _ => true
  | _ => false
  end.

Definition isResolve (e : Event) : bool :=
  match e with
  | EvResolve _ _ _ => true
  | _ => false
  end.

Definition isWait (e : Event) : bool :=
  match e with
  | EvWait => true
  | _ => false
  end.

Definition isDo (e : Event) : bool :=
  match e with
  | EvDo _ => true
  | _ => false
  end.

(** The events of [ensureDirExists]: a look at, or a change of, the
    directory tree. *)
Definition isDirEvent (e : Event) : bool :=
  match e with
  | EvStat _ | EvMkdirAll _ _ => true
  | _ => false
  end.

Definition noDirEvents (t : list Event) : Prop :=
  forallb (fun e => negb (isDirEvent e)) t = true.

(** The trace ends with a line of the log. *)
Definition endsInLog (t : list Event) : bool :=
  match rev t with
  | EvLog _ :: _ => true
  | _ => false
  end.

(** The trace ends with [EvWait] and has no other. *)
Definition endsInWait (t : list Event) : bool :=
  match rev t with
  | EvWait :: before => negb (existsb isWait before)
  | _ => false
  end.

(** The local file an event creates, writes or closes. *)
Definition pathOf (e : Event) : option string :=
  match e with
  | EvCreate p | EvFileWrite p _ | EvFileClose p => Some p
  | _ => None
  end.

Definition onlyFile (fp : string) (t : list Event) : Prop :=
  Forall (fun e => forall p, pathOf e = Some p -> p = fp) t.

(** The bytes a trace writes to the file [fp], in order. *)
Fixpoint written (fp : string) (t : list Event) : list Byte.byte :=
  match t with
  | [] => []
  | EvFileWrite p b :: t' =>
      if p =?s fp then (b ++ written fp t')%list else written fp t'
  | _ :: t' => written fp t'
  end.

(** What [io.Copy] leaves in the trace: progress lines and writes to
    the one file. *)
Definition isCopyEvent (fp : string) (e : Event) : bool :=
  match e with
  | EvProgress _ _ _ => true
  | EvFileWrite p _ => p =?s fp
  | _ => false
  end.

(** The request of a download, as the claims describe it: GET, with
    the bearer token as its only header when there is a token. *)
Definition requestFor (url token : string) : Request :=
  {| Method := "GET"; URL := url;
     Header := if token =?s "" then []
               else [("Authorization", "Bearer " ++ token)] |}.

(** The counter that [downloadFile] starts with. *)
Definition freshCounter (fp : string) (totalBytes : Z) : WriteCounter :=
  {| filename := fp; total := totalBytes; read := 0; lastReported := 0 |}.

(** What each call of a run of [Write] calls prints, first call first. *)
Fixpoint writeAll (wc : WriteCounter) (ps : list (list Byte.byte)) : list (list Event) :=
  match ps with
  | [] => []
  | p :: ps' =>
      let '(printed, wc', _) := WriteCounter_Write wc p in
      printed :: writeAll wc' ps'
  end.

(** Whether the counter prints on a call with [p]. *)
Definition prints (wc : WriteCounter) (p : list Byte.byte) : bool :=
  match fst (fst (WriteCounter_Write wc p)) with
  | [] => false
  | _ :: _ => true
  end.

(** A file name that [filepath.Join] keeps as it is: not empty, no
    separator in it, and neither [.] nor [..]. *)
Fixpoint noSeparator (s : string) : bool :=
  match s with
  | EmptyString => true
  | String c s' => negb (Filepath.IsPathSeparator c) && noSeparator s'
  end.

Definition plainName (s : string) : bool :=
  negb (s =?s "") && negb (s =?s ".") && negb (s =?s "..") && noSeparator s.

Fixpoint distinct (l : list string) : bool :=
  match l with
  | [] => true
  | x :: l' => negb (existsb (String.eqb x) l') && distinct l'
  end.




(** Where the main goroutine stands: when [main] will return, it is
    either before its one [wg.Wait()], or past it with the counter at
    zero; when it will exit, the code is 1. *)
Definition mainInv (os : OS) (s : Sched.State) : Prop :=
  match result (main os) with
  | Ret _ =>
      (exists before, Sched.main_todo s = (before ++ [EvWait])%list
                      /\ existsb isWait before = false)
      \/ (Sched.main_todo s = [] /\ Sched.wg s = 0)
  | Exit c => c = 1
  | Panic _ => True
  end.

Record Inv (os : OS) (s : Sched.State) : Prop := {
  inv_launch :
    (map Sched.launch (Sched.tasks s) ++ launches (Sched.main_todo s))%list
    = launches (trace (main os));
  inv_tasks : Forall Sched.taskInv (Sched.tasks s);
  inv_wg : Sched.wg s = Sched.owed (Sched.tasks s);
  inv_main : mainInv os s;
  inv_exit : Sched.exited s = Some 0 ->
             Sched.main_todo s = [] /\ Sched.wg s = 0
}.

(** C3 as it is worded: the resolver is reached only when the output
    directory exists. *)
Definition validatesDirExists (os : OS) : Prop :=
  forall dir,
    nth_error (os_Args os) 3 = Some dir ->
    existsb isResolve (trace (main os)) = true ->
    os_Stat os dir = StatFound.


(** ** Concrete runs *)

Definition smallBody : Response :=
  {| ContentLength := 3;
     Body := [[Byte.x7b]; []; [Byte.x7d; Byte.x0a]];
     BodyErr := None |}.

(** A public download into a directory that does not exist yet and
    can be created. *)
Definition os_public : OS := {|
  os_Args := ["download_script"; "public"; "tiiuae/falcon-7b"; "/workspace/weights"];
  os_Environ := fun _ => None;
  os_Stat := fun _ => StatNotExist;
  os_MkdirAll := fun _ _ => None;
  os_Create := fun _ => None;
  file_Write := fun _ _ => None;
  http_NewRequest := fun _ _ => None;
  client_Do := fun _ => inl smallBody
|}.

(** A private download with the token in the environment. *)
Definition os_private : OS := {|
  os_Args := ["download_script"; "private"; "llama-2-70b"; "/workspace/weights";
              "10.0.0.1"; "8080"];
  os_Environ := fun k => if k =?s "AUTH_TOKEN_ENV_VAR" then Some "s3cret" else None;
  os_Stat := fun _ => StatFound;
  os_MkdirAll := fun _ _ => None;
  os_Create := fun _ => None;
  file_Write := fun _ _ => None;
  http_NewRequest := fun _ _ => None;
  client_Do := fun _ => inl smallBody
|}.

(** The same without the token. *)
Definition os_private_no_token : OS := {|
  os_Args := os_Args os_private;
  os_Environ := fun _ => None;
  os_Stat := os_Stat os_private;
  os_MkdirAll := os_MkdirAll os_private;
  os_Create := os_Create os_private;
  file_Write := file_Write os_private;
  http_NewRequest := http_NewRequest os_private;
  client_Do := client_Do os_private
|}.

(** A model version that no link type accepts. *)
Definition os_unknown_model : OS := {|
  os_Args := ["download_script"; "public"; "llama-2-7b"; "/workspace/weights"];
  os_Environ := os_Environ os_public;
  os_Stat := os_Stat os_public;
  os_MkdirAll := os_MkdirAll os_public;
  os_Create := os_Create os_public;
  file_Write := file_Write os_public;
  http_NewRequest := http_NewRequest os_public;
  client_Do := client_Do os_public
|}.

(** The public download again, where the server refuses the
    connection for the first shard. *)
Definition os_refused : OS := {|
  os_Args := os_Args os_public;
  os_Environ := os_Environ os_public;
  os_Stat := os_Stat os_public;
  os_MkdirAll := os_MkdirAll os_public;
  os_Create := os_Create os_public;
  file_Write := file_Write os_public;
  http_NewRequest := http_NewRequest os_public;
  client_Do := fun req =>
    if URL req =?s "https://huggingface.co/tiiuae/falcon-7b/resolve/main/pytorch_model-00001-of-00002.bin"
    then inr "dial tcp: connect: connection refused"
    else inl smallBody
|}.

(** [main] checks the directory, resolves and starts two tasks; the
    first task creates its file, sends its request, logs the error and
    exits the process. *)
Definition refusedSchedule : list Sched.Choice :=
  [ Sched.RunMain; Sched.RunMain; Sched.RunMain; Sched.RunMain; Sched.RunMain;
    Sched.RunTask 0; Sched.RunTask 0; Sched.RunTask 0; Sched.RunTask 0 ].

(** A complete run of the public download: [main] up to the wait,
    each of the ten tasks from start to end in turn, then the wait and
    the return of [main]. *)
Definition completeSchedule : list Sched.Choice :=
  (repeat Sched.RunMain 13
     ++ flat_map (fun i => repeat (Sched.RunTask i) 9) (seq 0 10)
     ++ [Sched.RunMain; Sched.RunMain])%list.

(** The state after a schedule; the initial state when the schedule
    cannot be run. *)
Definition stateAfter (os : OS) (cs : list Sched.Choice) : Sched.State :=
  match Sched.exec os (Sched.init os) cs with
  | Some s => s
  | None => Sched.init os
  end.

(** ** Reading the model beyond the claims *)

(** The number that a string of decimal digits writes, continuing from
    [acc]. *)
Fixpoint readDigits (s : string) (acc : Z) : Z :=
  match s with
  | EmptyString => acc
  | String c s' => readDigits s' (10 * acc + (Z.of_nat (nat_of_ascii c) - 48))
  end.

(** The shard names of [falconModelURLs], first shard first. *)
Definition shardNames (count : Z) : list string :=
  map (fun i : nat => shardName (Z.of_nat i) count) (seq 1 (Z.to_nat count)).

Definition isGetenv (e : Event) : bool :=
  match e with
  | EvGetenv _ => true
  | _ => false
  end.

(** The files of a llama version, as [getPrivateURLsForModel] lists
    them: the chat version has the files of the base version. *)
Definition llamaFiles (modelVersion : string) : list string :=
  if (modelVersion =?s "llama-2-7b") || (modelVersion =?s "llama-2-7b-chat")
  then llama7bFiles
  else if (modelVersion =?s "llama-2-13b") || (modelVersion =?s "llama-2-13b-chat")
  then llama13bFiles
  else llama70bFiles.

(** The directory is there when [ensureDirExists] is done: it was
    not reported missing, or it could be created. *)
Definition dirReady (os : OS) (dir : string) : Prop :=
  os_Stat os dir <> StatNotExist \/ os_MkdirAll os dir 493 = None.

(** A run with a link type that the program does not name. *)
Definition os_mirror : OS := {|
  os_Args := ["download_script"; "mirror"; "llama-2-13b"; "/workspace/weights";
              "one"; "two"; "three"];
  os_Environ := fun _ => Some "ignored";
  os_Stat := fun _ => StatFound;
  os_MkdirAll := fun _ _ => None;
  os_Create := fun _ => None;
  file_Write := fun _ _ => None;
  http_NewRequest := fun _ _ => None;
  client_Do := fun _ => inr "unsupported protocol scheme"
|}.

(** The counter after a run of [Write] calls. *)
Fixpoint afterWrites (wc : WriteCounter) (ps : list (list Byte.byte)) : WriteCounter :=
  match ps with
  | [] => wc
  | p :: ps' => afterWrites (snd (fst (WriteCounter_Write wc p))) ps'
  end.

(** The number of progress lines of a run of [Write] calls. *)
Definition progressLines (wc : WriteCounter) (ps : list (list Byte.byte)) : Z :=
  Z.of_nat (length (concat (writeAll wc ps))).

(** The number of bytes of a run of slices. *)
Definition totalLength (ps : list (list Byte.byte)) : Z :=
  Z.of_nat (length (concat ps)).

(** The three deferred calls of [downloadFile]. *)
Definition isDeferred (e : Event) : bool :=
  match e with
  | EvBodyClose | EvFileClose _ | EvWgDone => true
  | _ => false
  end.

Definition isLogLine (e : Event) : bool :=
  match e with
  | EvLog _ => true
  | _ => false
  end.

(** The exit codes of the process: 0 is [main] returning, 1 is
    [log.Fatal], 2 is the panic on an empty argument vector. *)
Definition exitCodeOK (os : OS) (s : Sched.State) : Prop :=
  forall c,
    Sched.exited s = Some c ->
    (c = 0 /\ result (main os) = Ret tt)
    \/ c = 1
    \/ (c = 2 /\ os_Args os = []).

(** The files of a falcon version: two shards for the 7b versions,
    nine for the 40b versions. *)
Definition falconFiles (modelVersion : string) : list string :=
  if (modelVersion =?s "tiiuae/falcon-7b") || (modelVersion =?s "tiiuae/falcon-7b-instruct")
  then falcon7bFiles
  else falcon40bFiles.

(** The chunks of a body can all be written to the file. *)
Definition writable (os : OS) (fp : string) (chunks : list (list Byte.byte)) : Prop :=
  Forall (fun p => p = [] \/ file_Write os fp p = None) chunks.

(** Each task of a state runs the download it was started for. *)
Definition tasksRunDownloads (os : OS) (s : Sched.State) : Prop :=
  Forall (fun t => Sched.ending t
                   = result (downloadFile os (Sched.t_folder t) (Sched.t_url t)
                               (Sched.t_token t)))
         (Sched.tasks s).

(** A public run with arguments and an environment that it has no
    use for. *)
Definition os_public_extras : OS := {|
  os_Args := ["download_script"; "public"; "tiiuae/falcon-40b-instruct";
              "/workspace/weights"; "10.0.0.1"];
  os_Environ := fun _ => Some "s3cret";
  os_Stat := fun _ => StatOtherError;
  os_MkdirAll := fun _ _ => Some "permission denied";
  os_Create := fun _ => None;
  file_Write := fun _ _ => None;
  http_NewRequest := fun _ _ => None;
  client_Do := fun _ => inl smallBody
|}.

(** ** What the corrected claims are stated with *)

(** The first event of [main] after [ensureDirExists]: the resolver
    for a link type that is not "private"; for "private" the usage
    line when the argument vector does not have two entries after the
    output directory, and the read of the token when it has. *)
Definition afterDirCheck (prog link model : string) (more : list string) : Event :=
  if link =?s "private" then
    if (length more =? 2)%nat then EvGetenv "AUTH_TOKEN_ENV_VAR"
    else EvLog ("Usage (private link): " ++ prog ++
                " <link_type> <model_version> <output_directory> <external_IP> <external_port>")
  else EvResolve link "" model.



(** C4 with the number of positional arguments (those after the
    program name) left open: a private run without the token, or with
    another number of positional arguments than [n], exits before the
    resolver and starts no task. *)
Definition privateRunNeeds (n : nat) (os : OS) : Prop :=
  nth_error (os_Args os) 1 = Some "private" ->
  os_Environ os "AUTH_TOKEN_ENV_VAR" = None
    \/ os_Environ os "AUTH_TOKEN_ENV_VAR" = Some ""
    \/ length (tl (os_Args os)) <> n ->
  result (main os) = Exit 1
  /\ endsInLog (trace (main os)) = true
  /\ existsb isResolve (trace (main os)) = false
  /\ launches (trace (main os)) = [].


(** ** Strings *)

Section Strings.

Lemma append_assoc (a b c : string) : a ++ b ++ c = (a ++ b) ++ c.
Proof. induction a as [|x a IH]; simpl; [reflexivity | now rewrite IH]. Qed.

Lemma append_inj_l (a x y : string) : a ++ x = a ++ y -> x = y.
Proof.
  induction a as [|c a IH]; simpl; intros H; [exact H|].
  injection H as H. now apply IH.
Qed.

End Strings.

(** ** The library functions on the values of their documentation *)

Example d05_values :
  Fmt.d05 1 = "00001" /\ Fmt.d05 9 = "00009" /\ Fmt.d05 0 = "00000"
  /\ Fmt.d05 123456 = "123456" /\ Fmt.d05 (-1) = "-0001".
Proof. repeat split; reflexivity. Qed.

Example Base_values :
  Filepath.Base "" = "." /\ Filepath.Base "/" = "/" /\ Filepath.Base "///" = "/"
  /\ Filepath.Base "abc" = "abc" /\ Filepath.Base "abc/def" = "def"
  /\ Filepath.Base "a/b/.x" = ".x" /\ Filepath.Base "a/b/c." = "c."
  /\ Filepath.Base "a/b/c.x" = "c.x" /\ Filepath.Base "a/b//" = "b".
Proof. repeat split; reflexivity. Qed.

Example Clean_values :
  Filepath.Clean "" = "." /\ Filepath.Clean "abc" = "abc"
  /\ Filepath.Clean "abc//def//ghi" = "abc/def/ghi"
  /\ Filepath.Clean "abc/./def" = "abc/def"
  /\ Filepath.Clean "/./abc/def" = "/abc/def"
  /\ Filepath.Clean "abc/def/../ghi/../jkl" = "abc/jkl"
  /\ Filepath.Clean "abc/def/../../.." = ".."
  /\ Filepath.Clean "/abc/def/../../.." = "/"
  /\ Filepath.Clean "abc/def/../../../ghi/jkl/../../../mno" = "../../mno"
  /\ Filepath.Clean "/../abc" = "/abc"
  /\ Filepath.Clean "abc/./../def" = "def"
  /\ Filepath.Clean "abc/" = "abc" /\ Filepath.Clean "///" = "/".
Proof. repeat split; reflexivity. Qed.

Example Join_values :
  Filepath.Join [] = "" /\ Filepath.Join [""] = "" /\ Filepath.Join ["a"] = "a"
  /\ Filepath.Join ["a"; "b"] = "a/b" /\ Filepath.Join ["a"; ""] = "a"
  /\ Filepath.Join [""; "b"] = "b" /\ Filepath.Join ["/"; "a"] = "/a"
  /\ Filepath.Join ["/"; ""] = "/" /\ Filepath.Join ["a/"; "b"] = "a/b"
  /\ Filepath.Join ["a/"; ""] = "a" /\ Filepath.Join [""; ""] = "".
Proof. repeat split; reflexivity. Qed.

(** ** The resolver *)

(** C1. [getURLsForModel] is a function of its three arguments alone
    (it takes nothing from the environment).  For link type "public" and
    any base URL, the two falcon-7b versions resolve to exactly 10 URLs,
    the 2 shards in ascending order and then the 8 common files from
    config.json to modeling_falcon.py; the two falcon-40b versions
    resolve to the 9 shards in ascending order and then the same 8
    common files. *)
Theorem getURLsForModel_public_falcon :
  forall baseURL : string,
    getURLsForModel "public" baseURL "tiiuae/falcon-7b"
      = ([], Ret (onHub "tiiuae/falcon-7b" falcon7bFiles))
    /\ getURLsForModel "public" baseURL "tiiuae/falcon-7b-instruct"
      = ([], Ret (onHub "tiiuae/falcon-7b-instruct" falcon7bFiles))
    /\ getURLsForModel "public" baseURL "tiiuae/falcon-40b"
      = ([], Ret (onHub "tiiuae/falcon-40b" falcon40bFiles))
    /\ getURLsForModel "public" baseURL "tiiuae/falcon-40b-instruct"
      = ([], Ret (onHub "tiiuae/falcon-40b-instruct" falcon40bFiles))
    /\ length falcon7bFiles = 10%nat
    /\ length falcon40bFiles = 17%nat.
Proof.
  intros baseURL. repeat split; reflexivity.
Qed.

(** C2. For "llama-2-70b" and "llama-2-70b-chat" the private resolver
    returns exactly 8 URLs: consolidated.00, 01, 03, 04, 05, 06 and 07
    in that order, then params.json; consolidated.02.pth is not in the
    list. *)
Theorem getPrivateURLsForModel_llama70b :
  forall baseURL modelVersion : string,
    modelVersion = "llama-2-70b" \/ modelVersion = "llama-2-70b-chat" ->
    getPrivateURLsForModel baseURL modelVersion
      = ([], Ret (onServer baseURL modelVersion llama70bFiles))
    /\ length (onServer baseURL modelVersion llama70bFiles) = 8%nat
    /\ ~ In (baseURL ++ modelVersion ++ "/consolidated.02.pth")
            (onServer baseURL modelVersion llama70bFiles).
Proof.
  intros baseURL modelVersion Hmv.
  split; [|split].
  - destruct Hmv as [-> | ->]; reflexivity.
  - reflexivity.
  - unfold onServer, llama70bFiles. simpl. intros H.
    repeat (destruct H as [H | H];
            [ apply append_inj_l in H; apply append_inj_l in H; discriminate H | ]).
    exact H.
Qed.

Lemma getPrivateURLsForModel_llama70b_witness :
  getPrivateURLsForModel "http://10.0.0.1:8080/download/" "llama-2-70b"
    = ([], Ret (onServer "http://10.0.0.1:8080/download/" "llama-2-70b" llama70bFiles))
  /\ length (onServer "http://10.0.0.1:8080/download/" "llama-2-70b" llama70bFiles) = 8%nat
  /\ ~ In ("http://10.0.0.1:8080/download/" ++ "llama-2-70b" ++ "/consolidated.02.pth")
          (onServer "http://10.0.0.1:8080/download/" "llama-2-70b" llama70bFiles).
Proof.
  apply (getPrivateURLsForModel_llama70b "http://10.0.0.1:8080/download/" "llama-2-70b").
  left. reflexivity.
Defined.

(** ** The monad *)

Lemma bind_ret_l {A B} (a : A) (k : A -> M B) : bind (ret a) k = k a.
Proof. unfold bind, ret. destruct (k a). reflexivity. Qed.

Lemma forEach_emit {A} (f : A -> Event) (l : list A) :
  forEach l (fun x => emit (f x)) = (map f l, Ret tt).
Proof.
  induction l as [|x l IH]; simpl; [reflexivity|].
  rewrite IH. reflexivity.
Qed.

(** ** The entry point, case by case

    [main] is straight-line code over a handful of tests.  The tactics
    below split on them in the order of the source: the number of
    arguments, the answer of [os.Stat] and of [os.MkdirAll], the link
    type with the argument count and the token, and the model version.
    In every case [main] then evaluates to a trace and a result. *)

Ltac split_args os :=
  unfold main, index;
  destruct (os_Args os)
    as [|arg0 [|linkType [|modelVersion [|outputDirectory rest]]]] eqn:Hargs;
  cbn [length Nat.ltb Nat.leb nth_error]; rewrite ?bind_ret_l.

Ltac split_dir os :=
  unfold ensureDirExists;
  match goal with
  | |- context [os_Stat os ?d] =>
      destruct (os_Stat os d) eqn:Hstat;
      [ | destruct (os_MkdirAll os d 493) as [mkErr|] eqn:Hmkdir | ]
  end.

Ltac split_private os :=
  match goal with
  | |- context [?lt =?s PrivateLink] =>
      destruct (lt =?s PrivateLink) eqn:Hprivate;
      [ match goal with
        | |- context [length ?rest] =>
            destruct rest as [|externalIP [|externalPort [|extra rest]]]
        end;
        cbn [length Nat.eqb negb nth_error];
        unfold os_Getenv;
        try (destruct (os_Environ os "AUTH_TOKEN_ENV_VAR") as [tok|] eqn:Henv;
             [ destruct (tok =?s "") eqn:Htok | ])
      | ]
  end.

Ltac split_model :=
  unfold getURLsForModel, getPrivateURLsForModel;
  repeat match goal with
         | |- context [?a =?s ?b] => destruct (a =?s b) eqn:?
         end.

(** With link type "private", when AUTH_TOKEN_ENV_VAR is unset or
    empty, or when the argument vector (the program name included)
    does not have exactly 6 entries, the run ends in [os.Exit(1)] with
    a line of the log as its last event, the resolver is not called and
    no download task is started. *)
Theorem main_private_preconditions :
  forall os : OS,
    nth_error (os_Args os) 1 = Some "private" ->
    os_Environ os "AUTH_TOKEN_ENV_VAR" = None
      \/ os_Environ os "AUTH_TOKEN_ENV_VAR" = Some ""
      \/ length (os_Args os) <> 6%nat ->
    result (main os) = Exit 1
    /\ endsInLog (trace (main os)) = true
    /\ existsb isResolve (trace (main os)) = false
    /\ launches (trace (main os)) = [].
Proof.
  intros os Hlink Hbad. revert Hlink Hbad. split_args os.
  all: try discriminate.
  all: intros [= ->].
  1, 2: intros _; repeat split; reflexivity.
  split_dir os; split_private os.
  all: try discriminate Hprivate.
  all: try (intros _; repeat split; reflexivity).
  all: intros [H | [H | H]]; try discriminate H;
       try (exfalso; apply H; reflexivity).
  all: injection H as ->; discriminate Htok.
Qed.

(** Outside the accepted set the resolver logs and exits. *)
Lemma getURLsForModel_rejects (linkType modelVersion : string) :
  accepted linkType modelVersion = false ->
  forall baseURL,
    getURLsForModel linkType baseURL modelVersion
    = ([EvLog ("Invalid model version for "
                 ++ (if linkType =?s "public" then "public" else "private")
                 ++ " link: " ++ modelVersion)],
       Exit 1).
Proof.
  intros Hacc baseURL. unfold accepted, isFalcon, isLlama in Hacc.
  unfold getURLsForModel, getPrivateURLsForModel, PublicLink.
  cbn [existsb] in Hacc.
  destruct (linkType =?s "public");
    repeat match type of Hacc with
           | context [?a =?s ?b] => destruct (a =?s b); cbn [orb] in Hacc |- *
           end; try discriminate Hacc; reflexivity.
Qed.

(** C5. A model version outside the accepted set of its link type
    makes the resolver log "Invalid model version for ... link: " with
    the version and exit the process; a run of [main] with such
    arguments ends in [os.Exit(1)] and starts no download task. *)
Theorem invalid_model_version :
  forall (os : OS) (linkType modelVersion : string),
    accepted linkType modelVersion = false ->
    (forall baseURL,
        getURLsForModel linkType baseURL modelVersion
        = ([EvLog ("Invalid model version for "
                     ++ (if linkType =?s "public" then "public" else "private")
                     ++ " link: " ++ modelVersion)],
           Exit 1))
    /\ (nth_error (os_Args os) 1 = Some linkType ->
        nth_error (os_Args os) 2 = Some modelVersion ->
        result (main os) = Exit 1 /\ launches (trace (main os)) = []).
Proof.
  intros os lt mv Hacc.
  pose proof (getURLsForModel_rejects lt mv Hacc) as Hres.
  split; [exact Hres|].
  intros H1 H2. revert H1 H2. split_args os.
  all: try discriminate.
  all: intros [= ->]; try discriminate.
  1: intros _; split; reflexivity.
  intros [= ->].
  split_dir os; split_private os; try (split; reflexivity).
  all: cbn [bind emit ret log_Fatal app]; rewrite Hres; split; reflexivity.
Qed.

Lemma invalid_model_version_witness :
  (forall baseURL,
      getURLsForModel "public" baseURL "llama-2-7b"
      = ([EvLog "Invalid model version for public link: llama-2-7b"], Exit 1))
  /\ result (main os_unknown_model) = Exit 1
  /\ launches (trace (main os_unknown_model)) = [].
Proof.
  destruct (invalid_model_version os_unknown_model "public" "llama-2-7b" eq_refl)
    as [Hres Hmain].
  split; [exact Hres|].
  apply Hmain; reflexivity.
Defined.

(** C3 as worded fails: the directory of [os_public] does not exist,
    and the run reaches the resolver all the same. *)
Lemma validatesDirExists_counterexample : ~ validatesDirExists os_public.
Proof.
  intros H.
  specialize (H "/workspace/weights" eq_refl eq_refl).
  discriminate H.
Qed.

(** ** The downloader *)

Section Downloader.

Variable os : OS.

Lemma Write_printed (wc : WriteCounter) (p : list Byte.byte) :
  fst (fst (WriteCounter_Write wc p)) = []
  \/ exists name r t, fst (fst (WriteCounter_Write wc p)) = [EvProgress name r t].
Proof.
  unfold WriteCounter_Write.
  destruct (_ >=? _); simpl; [right; eauto | left; reflexivity].
Qed.

Lemma io_Copy_cons (fp : string) (wc : WriteCounter) (b : Byte.byte)
    (p : list Byte.byte) (rest : list (list Byte.byte)) (bodyErr : option string) :
  io_Copy os fp wc ((b :: p) :: rest) bodyErr
  = let W := WriteCounter_Write wc (b :: p) in
    match file_Write os fp (b :: p) with
    | Some err => ((fst (fst W) ++ [EvFileWrite fp (b :: p)])%list, Ret (Some err))
    | None =>
        let c := io_Copy os fp (snd (fst W)) rest bodyErr in
        ((fst (fst W) ++ EvFileWrite fp (b :: p) :: trace c)%list, result c)
    end.
Proof.
  cbn [io_Copy].
  destruct (WriteCounter_Write wc (b :: p)) as [[printed wc'] r].
  cbn [fst snd]. unfold bind, emit, ret.
  destruct (file_Write os fp (b :: p)) as [err|]; cbn.
  - reflexivity.
  - destruct (io_Copy os fp wc' rest bodyErr) as [t r']. reflexivity.
Qed.

Lemma io_Copy_returns (fp : string) (chunks : list (list Byte.byte))
    (bodyErr : option string) :
  forall wc, exists e, result (io_Copy os fp wc chunks bodyErr) = Ret e.
Proof.
  induction chunks as [|p rest IH]; intros wc.
  - exists bodyErr. reflexivity.
  - destruct p as [|b p]; [apply IH|].
    rewrite io_Copy_cons. cbv zeta.
    destruct (file_Write os fp (b :: p)) as [err|]; [eexists; reflexivity|].
    apply IH.
Qed.

Lemma io_Copy_events (fp : string) (chunks : list (list Byte.byte))
    (bodyErr : option string) :
  forall wc, forallb (isCopyEvent fp) (trace (io_Copy os fp wc chunks bodyErr)) = true.
Proof.
  induction chunks as [|p rest IH]; intros wc.
  - reflexivity.
  - destruct p as [|b p]; [apply IH|].
    rewrite io_Copy_cons. cbv zeta.
    assert (Hfp : (fp =?s fp) = true) by apply String.eqb_refl.
    destruct (Write_printed wc (b :: p)) as [-> | (name & r & t & ->)];
      destruct (file_Write os fp (b :: p)) as [err|];
      cbn [trace fst app forallb isCopyEvent]; rewrite Hfp; cbn [andb];
      try reflexivity; apply IH.
Qed.

Lemma written_app (fp : string) (t1 t2 : list Event) :
  written fp (t1 ++ t2) = (written fp t1 ++ written fp t2)%list.
Proof.
  induction t1 as [|e t1 IH]; [reflexivity|].
  destruct e; cbn [app written]; try exact IH.
  destruct (path =?s fp); [|exact IH].
  rewrite IH. apply app_assoc.
Qed.

(** A copy that ends without an error has written the whole body. *)
Lemma io_Copy_written (fp : string) (chunks : list (list Byte.byte))
    (bodyErr : option string) :
  forall wc,
    result (io_Copy os fp wc chunks bodyErr) = Ret None ->
    bodyErr = None
    /\ written fp (trace (io_Copy os fp wc chunks bodyErr)) = concat chunks.
Proof.
  induction chunks as [|p rest IH]; intros wc.
  - cbn. intros [= ->]. split; reflexivity.
  - destruct p as [|b p]; [apply IH|].
    rewrite io_Copy_cons. cbv zeta.
    destruct (file_Write os fp (b :: p)) as [err|]; [discriminate|].
    cbn [result snd trace fst]. intros Hres.
    destruct (IH _ Hres) as [Hbe Hw]. split; [exact Hbe|].
    rewrite written_app. cbn [written].
    rewrite String.eqb_refl, Hw.
    destruct (Write_printed wc (b :: p)) as [-> | (name & r & t & ->)];
      reflexivity.
Qed.

(** [downloadFile], case by case. *)
Lemma downloadFile_cases (folderPath url token : string) :
  let fp := Filepath.Join [folderPath; getFilenameFromURL url] in
  let req := requestFor url token in
  match os_Create os fp with
  | Some err =>
      downloadFile os folderPath url token = ([EvCreate fp; EvLog err], Exit 1)
  | None =>
      match http_NewRequest os "GET" url with
      | Some err =>
          downloadFile os folderPath url token = ([EvCreate fp; EvLog err], Exit 1)
      | None =>
          match client_Do os req with
          | inr err =>
              downloadFile os folderPath url token
              = ([EvCreate fp; EvDo req; EvLog err], Exit 1)
          | inl resp =>
              let c := io_Copy os fp (freshCounter fp (ContentLength resp))
                         (Body resp) (BodyErr resp) in
              match result c with
              | Ret (Some err) =>
                  downloadFile os folderPath url token
                  = ((EvCreate fp :: EvDo req :: trace c ++ [EvLog err])%list, Exit 1)
              | Ret None =>
                  downloadFile os folderPath url token
                  = ((EvCreate fp :: EvDo req :: trace c
                        ++ [EvBodyClose; EvFileClose fp; EvWgDone])%list, Ret tt)
              | _ => False
              end
          end
      end
  end.
Proof.
  intros fp req.
  assert (Hreq : (if negb (token =?s "")
                  then Header_Add {| Method := "GET"; URL := url; Header := [] |}
                         "Authorization" ("Bearer " ++ token)
                  else {| Method := "GET"; URL := url; Header := [] |}) = req).
  { unfold req, requestFor. destruct (token =?s ""); reflexivity. }
  unfold downloadFile. fold fp. rewrite Hreq.
  destruct (os_Create os fp) as [err|]; [reflexivity|].
  destruct (http_NewRequest os "GET" url) as [err|]; [reflexivity|].
  destruct (client_Do os req) as [resp|err]; [|reflexivity].
  cbv zeta. fold (freshCounter fp (ContentLength resp)).
  destruct (io_Copy_returns fp (Body resp) (BodyErr resp)
              (freshCounter fp (ContentLength resp))) as [e He].
  rewrite He.
  destruct (io_Copy os fp (freshCounter fp (ContentLength resp))
              (Body resp) (BodyErr resp)) as [t r].
  cbn [result snd] in He. subst r.
  destruct e as [err|]; reflexivity.
Qed.

End Downloader.

Lemma copyEvents_onlyFile (fp : string) (t : list Event) :
  forallb (isCopyEvent fp) t = true -> onlyFile fp t.
Proof.
  unfold onlyFile. rewrite forallb_forall, Forall_forall.
  intros H e He p Hp. specialize (H e He).
  destruct e; cbn in Hp, H; try discriminate.
  injection Hp as <-. now apply String.eqb_eq.
Qed.

Lemma copyEvents_not (fp : string) (t : list Event) (f : Event -> bool) :
  (forall e, isCopyEvent fp e = true -> f e = false) ->
  forallb (isCopyEvent fp) t = true ->
  forall e, In e t -> f e = false.
Proof.
  intros Hf Ht e He. rewrite forallb_forall in Ht. auto.
Qed.

(** In the trace of [main], a run with link type "public" starts its
    tasks with the empty token. *)
Lemma main_public_token (os : OS) :
  nth_error (os_Args os) 1 = Some "public" ->
  Forall (fun l => snd l = "") (launches (trace (main os))).
Proof.
  intros Hlink. revert Hlink. split_args os.
  all: try discriminate.
  all: intros [= ->]; try (constructor; fail).
  split_dir os; split_private os; try discriminate Hprivate;
    try (constructor; fail).
  all: split_model.
  all: cbn [bind emit ret log_Fatal app orb]; rewrite ?forEach_emit.
  all: cbn; repeat constructor.
Qed.

(** C6. A request that [downloadFile] sends is a GET of the URL; its
    header is the single entry Authorization: "Bearer " + token when the
    token is not empty, and has no entry when it is.  In a run with
    link type "public" the tasks that [main] starts send requests with
    no Authorization header. *)
Theorem download_request_header :
  forall (os : OS) (folderPath url token : string) (req : Request),
    In (EvDo req) (trace (downloadFile os folderPath url token)) ->
    Method req = "GET"
    /\ URL req = url
    /\ Header req
       = (if token =?s "" then [] else [("Authorization", "Bearer " ++ token)])
    /\ (nth_error (os_Args os) 1 = Some "public" ->
        In (folderPath, url, token) (launches (trace (main os))) ->
        Header req = []).
Proof.
  intros os folderPath url token req Hin.
  assert (Hreq : req = requestFor url token).
  { pose proof (downloadFile_cases os folderPath url token) as Hc.
    cbv zeta in Hc.
    set (fp := Filepath.Join [folderPath; getFilenameFromURL url]) in *.
    destruct (os_Create os fp) as [err|].
    { rewrite Hc in Hin. cbn in Hin. intuition discriminate. }
    destruct (http_NewRequest os "GET" url) as [err|].
    { rewrite Hc in Hin. cbn in Hin. intuition discriminate. }
    destruct (client_Do os (requestFor url token)) as [resp|err].
    2: { rewrite Hc in Hin. cbn in Hin.
         destruct Hin as [H | [H | [H | []]]]; try discriminate H.
         now injection H as <-. }
    pose proof (io_Copy_events os fp (Body resp) (BodyErr resp)
                  (freshCounter fp (ContentLength resp))) as Hev.
    assert (Hno : forall t', In (EvDo req)
                    (EvCreate fp :: EvDo (requestFor url token)
                       :: trace (io_Copy os fp (freshCounter fp (ContentLength resp))
                                   (Body resp) (BodyErr resp)) ++ t')%list ->
                  (forall e, In e t' -> isDo e = false) ->
                  req = requestFor url token).
    { intros t' H Ht'. destruct H as [H | [H | H]]; try discriminate H.
      - now injection H as <-.
      - apply in_app_or in H. destruct H as [H | H].
        + apply (copyEvents_not fp _ isDo) with (e := EvDo req) in Hev;
            [discriminate Hev | | exact H].
          intros e. destruct e; cbn; congruence.
        + apply Ht' in H. discriminate H. }
    destruct (result (io_Copy os fp (freshCounter fp (ContentLength resp))
                        (Body resp) (BodyErr resp))) as [[e|] | |];
      try contradiction; rewrite Hc in Hin; cbn [trace fst] in Hin.
    - apply (Hno _ Hin). intros ev [<- | []]. reflexivity.
    - apply (Hno _ Hin). intros ev [<- | [<- | [<- | []]]]; reflexivity. }
  subst req. cbn [Method URL Header requestFor].
  repeat split.
  intros Hlink Hlaunched.
  pose proof (main_public_token os Hlink) as Htok.
  rewrite Forall_forall in Htok. apply Htok in Hlaunched.
  cbn in Hlaunched. subst token. reflexivity.
Qed.

Lemma download_request_header_witness :
  Method (requestFor "https://huggingface.co/tiiuae/falcon-7b/raw/main/config.json" "") = "GET"
  /\ URL (requestFor "https://huggingface.co/tiiuae/falcon-7b/raw/main/config.json" "")
     = "https://huggingface.co/tiiuae/falcon-7b/raw/main/config.json"
  /\ Header (requestFor "https://huggingface.co/tiiuae/falcon-7b/raw/main/config.json" "")
     = [].
Proof.
  destruct (download_request_header os_public "/workspace/weights"
              "https://huggingface.co/tiiuae/falcon-7b/raw/main/config.json" ""
              (requestFor "https://huggingface.co/tiiuae/falcon-7b/raw/main/config.json" ""))
    as (Hmethod & Hurl & _ & Hpublic).
  - cbn. right. left. reflexivity.
  - split; [exact Hmethod|]. split; [exact Hurl|].
    apply Hpublic.
    + reflexivity.
    + cbn. do 2 right. left. reflexivity.
Defined.

(** C7. Every file that [downloadFile] creates, writes or closes is
    the one at [filepath.Join(folderPath, filepath.Base(url))]; when
    the download returns, the bytes written to that file are the body
    of the response, in order. *)
Theorem downloadFile_writes_one_file :
  forall (os : OS) (folderPath url token : string),
    getFilenameFromURL url = Filepath.Base url
    /\ onlyFile (Filepath.Join [folderPath; Filepath.Base url])
         (trace (downloadFile os folderPath url token))
    /\ (result (downloadFile os folderPath url token) = Ret tt ->
        exists resp,
          client_Do os (requestFor url token) = inl resp
          /\ written (Filepath.Join [folderPath; Filepath.Base url])
               (trace (downloadFile os folderPath url token))
             = concat (Body resp)).
Proof.
  intros os folderPath url token.
  split; [reflexivity|].
  pose proof (downloadFile_cases os folderPath url token) as Hc.
  cbv zeta in Hc. unfold getFilenameFromURL in Hc.
  set (fp := Filepath.Join [folderPath; Filepath.Base url]) in *.
  assert (Hsmall : forall e1 e2, pathOf e1 = None -> pathOf e2 = None ->
                     onlyFile fp [EvCreate fp; e1; e2]).
  { intros e1 e2 H1 H2. unfold onlyFile.
    repeat (apply Forall_cons; [intros p Hp; cbn [pathOf] in Hp; congruence|]).
    apply Forall_nil. }
  destruct (os_Create os fp) as [err|].
  { rewrite Hc. split; [|discriminate].
    unfold onlyFile.
    repeat (apply Forall_cons; [intros p Hp; cbn [pathOf] in Hp; congruence|]).
    apply Forall_nil. }
  destruct (http_NewRequest os "GET" url) as [err|].
  { rewrite Hc. split; [|discriminate].
    unfold onlyFile.
    repeat (apply Forall_cons; [intros p Hp; cbn [pathOf] in Hp; congruence|]).
    apply Forall_nil. }
  destruct (client_Do os (requestFor url token)) as [resp|err].
  2: { rewrite Hc. split; [|discriminate]. apply Hsmall; reflexivity. }
  pose proof (io_Copy_events os fp (Body resp) (BodyErr resp)
                (freshCounter fp (ContentLength resp))) as Hev.
  pose proof (io_Copy_written os fp (Body resp) (BodyErr resp)
                (freshCounter fp (ContentLength resp))) as Hw.
  apply copyEvents_onlyFile in Hev.
  destruct (result (io_Copy os fp (freshCounter fp (ContentLength resp))
                      (Body resp) (BodyErr resp))) as [[e|] | |];
    try contradiction; rewrite Hc; cbn [trace result fst snd].
  - split; [|discriminate].
    unfold onlyFile in *. constructor; [intros p [= <-]; reflexivity|].
    constructor; [intros p [=]|].
    apply Forall_app. split; [exact Hev|].
    repeat (apply Forall_cons; [intros p [=]|]). apply Forall_nil.
  - split.
    + unfold onlyFile in *. constructor; [intros p [= <-]; reflexivity|].
      constructor; [intros p [=]|].
      apply Forall_app. split; [exact Hev|].
      repeat (apply Forall_cons; [intros p Hp; cbn [pathOf] in Hp; congruence|]).
      apply Forall_nil.
    + intros _. exists resp. split; [reflexivity|].
      destruct (Hw eq_refl) as [_ Hbody].
      cbn [written]. rewrite written_app, Hbody. cbn [written].
      apply app_nil_r.
Qed.

Lemma downloadFile_writes_one_file_witness :
  exists resp,
    client_Do os_public
      (requestFor "https://huggingface.co/tiiuae/falcon-7b/raw/main/config.json" "")
    = inl resp
    /\ written
         (Filepath.Join ["/workspace/weights";
                         Filepath.Base "https://huggingface.co/tiiuae/falcon-7b/raw/main/config.json"])
         (trace (downloadFile os_public "/workspace/weights"
                   "https://huggingface.co/tiiuae/falcon-7b/raw/main/config.json" ""))
       = concat (Body resp).
Proof.
  apply (downloadFile_writes_one_file os_public "/workspace/weights"
           "https://huggingface.co/tiiuae/falcon-7b/raw/main/config.json" "").
  reflexivity.
Defined.

(** ** The progress counter *)







(** There, a call with an empty slice on the fresh counter prints
    nothing. *)
Remark empty_write_at_100_is_silent :
  writeAll (freshCounter "/workspace/weights/config.json" 100) [[]] = [[]].
Proof. reflexivity. Qed.

(** ** File names *)

Section FileNames.

Import Filepath.

Lemma append_not_empty (a b : string) : b <> "" -> a ++ b <> "".
Proof. destruct a; cbn; [auto | discriminate]. Qed.

Lemma eqb_empty_false (s : string) : s <> "" -> (s =?s "") = false.
Proof. intros H. now apply String.eqb_neq. Qed.

Lemma stripTrailing_noSeparator (f : string) :
  noSeparator f = true -> stripTrailing f = f.
Proof.
  induction f as [|c f IH]; [reflexivity|].
  cbn [noSeparator stripTrailing]. intros H.
  apply andb_prop in H. destruct H as [Hc Hf].
  rewrite (IH Hf). apply negb_true_iff in Hc. rewrite Hc.
  destruct f; reflexivity.
Qed.

Lemma stripTrailing_append (a s : string) :
  s <> "" -> stripTrailing s = s -> stripTrailing (a ++ s) = a ++ s.
Proof.
  intros Hne Hs. induction a as [|c a IH]; [exact Hs|].
  cbn [append stripTrailing]. rewrite IH.
  destruct (a ++ s) eqn:E; [|reflexivity].
  exfalso. exact (append_not_empty a s Hne E).
Qed.

Lemma afterLastSeparator_noSeparator (f : string) :
  noSeparator f = true -> afterLastSeparator f = None.
Proof.
  induction f as [|c f IH]; [reflexivity|].
  cbn [noSeparator afterLastSeparator]. intros H.
  apply andb_prop in H. destruct H as [Hc Hf].
  rewrite (IH Hf). apply negb_true_iff in Hc. now rewrite Hc.
Qed.

Lemma afterLastSeparator_append (a f : string) :
  noSeparator f = true -> afterLastSeparator (a ++ String "/" f) = Some f.
Proof.
  intros Hf. induction a as [|c a IH].
  - cbn. now rewrite (afterLastSeparator_noSeparator f Hf).
  - cbn [append afterLastSeparator]. now rewrite IH.
Qed.

(** The base name of a path that ends in a separator and a plain
    name is that name. *)
Lemma Base_file (pre f : string) :
  f <> "" -> noSeparator f = true -> Base (pre ++ "/" ++ f) = f.
Proof.
  intros Hne Hf. unfold Base.
  assert (Hs : String "/" f <> "") by discriminate.
  change ("/" ++ f) with (String "/" f).
  rewrite (eqb_empty_false _ (append_not_empty pre _ Hs)).
  rewrite stripTrailing_append; [ | exact Hs | ].
  - rewrite (afterLastSeparator_append pre f Hf).
    now rewrite (eqb_empty_false f Hne).
  - cbn [stripTrailing]. rewrite (stripTrailing_noSeparator f Hf).
    destruct f; [contradiction | reflexivity].
Qed.

Lemma plainName_facts (f : string) :
  plainName f = true ->
  f <> "" /\ f <> "." /\ f <> ".." /\ noSeparator f = true.
Proof.
  unfold plainName. intros H.
  repeat (apply andb_prop in H; destruct H as [H ?]).
  repeat split; try assumption;
    apply String.eqb_neq; now apply negb_true_iff.
Qed.

Lemma onServer_names (baseURL modelVersion : string) (files : list string) :
  forallb plainName files = true ->
  map getFilenameFromURL (onServer baseURL modelVersion files) = files.
Proof.
  induction files as [|f files IH]; [reflexivity|].
  cbn [forallb]. intros H. apply andb_prop in H. destruct H as [Hf Hfiles].
  destruct (plainName_facts f Hf) as (Hne & _ & _ & Hsep).
  cbn [onServer map]. unfold getFilenameFromURL at 1.
  rewrite append_assoc, (Base_file _ f Hne Hsep).
  f_equal. exact (IH Hfiles).
Qed.

(** *** Join *)

Lemma split_noSeparator (f : string) :
  noSeparator f = true -> split f = [f].
Proof.
  induction f as [|c f IH]; [reflexivity|].
  cbn [noSeparator split]. intros H.
  apply andb_prop in H. destruct H as [Hc Hf].
  apply negb_true_iff in Hc. rewrite Hc, (IH Hf). reflexivity.
Qed.

Lemma split_not_nil (s : string) : split s <> [].
Proof.
  induction s as [|c s IH]; [discriminate|].
  cbn [split]. destruct (IsPathSeparator c); [discriminate|].
  destruct (split s); [contradiction | discriminate].
Qed.

Lemma split_append (a b : string) :
  split (a ++ String "/" b) = (split a ++ split b)%list.
Proof.
  induction a as [|c a IH]; [reflexivity|].
  cbn [append split]. rewrite IH.
  destruct (IsPathSeparator c); [reflexivity|].
  pose proof (split_not_nil a) as Hnil.
  destruct (split a); [contradiction | reflexivity].
Qed.

Lemma cleanStep_plain (rooted : bool) (out : Buf) (f : string) :
  plainName f = true -> cleanStep rooted out f = (fst out, f :: snd out).
Proof.
  intros Hf. destruct (plainName_facts f Hf) as (H1 & H2 & H3 & _).
  destruct out as [dotdot elems]. unfold cleanStep.
  apply String.eqb_neq in H1, H2, H3. now rewrite H1, H2, H3.
Qed.

Lemma concat_snoc (l : list string) (f : string) :
  String.concat "/" (l ++ [f])
  = match l with
    | [] => ""
    | _ :: _ => String.concat "/" l ++ "/"
    end ++ f.
Proof.
  induction l as [|x l IH]; [reflexivity|].
  cbn [app]. change (String.concat "/" (x :: l ++ [f]))
    with (match (l ++ [f])%list with
          | [] => x
          | _ :: _ => x ++ "/" ++ String.concat "/" (l ++ [f])
          end).
  destruct l as [|y l]; [cbn; now rewrite <- !append_assoc|].
  cbn [app] in *. rewrite IH.
  change (String.concat "/" (x :: y :: l))
    with (x ++ "/" ++ String.concat "/" (y :: l)).
  now rewrite <- !append_assoc.
Qed.

Lemma render_plain (rooted : bool) (dotdot : nat) (elems : list string) (f : string) :
  f <> "" ->
  render rooted (dotdot, f :: elems)
  = Filepath.before rooted (repeat ".." dotdot ++ rev elems) ++ f.
Proof.
  intros Hne. unfold render, Filepath.before. cbn [rev].
  rewrite app_assoc, concat_snoc, append_assoc.
  now rewrite (eqb_empty_false _ (append_not_empty _ f Hne)).
Qed.

(** Joined to a folder, a plain name stays the last part of the path:
    the path is a prefix that depends on the folder alone, and then
    the name. *)
Lemma Join_plainName (folderPath : string) :
  exists pre, forall f,
    plainName f = true -> Join [folderPath; f] = pre ++ f.
Proof.
  destruct (folderPath =?s "") eqn:Efolder.
  - exists "". intros f Hf.
    destruct (plainName_facts f Hf) as (Hne & _ & _ & Hsep).
    cbn [Join]. rewrite Efolder, (eqb_empty_false f Hne).
    cbn [String.concat]. unfold Clean.
    rewrite (eqb_empty_false f Hne), (split_noSeparator f Hsep).
    cbn [fold_left]. rewrite (cleanStep_plain _ _ f Hf). cbn [fst snd].
    assert (Hroot : isRooted f = false).
    { destruct f as [|c f]; [reflexivity|].
      cbn in Hsep. apply andb_prop in Hsep. destruct Hsep as [Hc _].
      now apply negb_true_iff in Hc. }
    rewrite Hroot, (render_plain _ _ _ f Hne). reflexivity.
  - apply String.eqb_neq in Efolder.
    set (rooted := isRooted folderPath).
    destruct (fold_left (cleanStep rooted) (split folderPath) (0%nat, []))
      as [dotdot elems] eqn:Efold.
    exists (Filepath.before rooted (repeat ".." dotdot ++ rev elems)).
    intros f Hf.
    destruct (plainName_facts f Hf) as (Hne & _ & _ & Hsep).
    cbn [Join]. rewrite (eqb_empty_false _ Efolder).
    cbn [String.concat]. unfold Clean.
    change ("/" ++ f) with (String "/" f).
    assert (Hs : String "/" f <> "") by discriminate.
    rewrite (eqb_empty_false _ (append_not_empty folderPath _ Hs)).
    assert (Hroot : isRooted (folderPath ++ String "/" f) = rooted).
    { unfold rooted. destruct folderPath; [contradiction | reflexivity]. }
    rewrite Hroot, split_append, (split_noSeparator f Hsep), fold_left_app.
    rewrite Efold. cbn [fold_left].
    rewrite (cleanStep_plain _ _ f Hf). cbn [fst snd].
    exact (render_plain rooted dotdot elems f Hne).
Qed.

End FileNames.

(** ** Distinct files *)

Lemma distinct_NoDup (l : list string) : distinct l = true -> NoDup l.
Proof.
  induction l as [|x l IH]; cbn [distinct]; intros H; [constructor|].
  apply andb_prop in H. destruct H as [Hx Hl].
  constructor; [|exact (IH Hl)].
  intros Hin. apply negb_true_iff in Hx.
  assert (Hex : existsb (String.eqb x) l = true).
  { apply existsb_exists. exists x. split; [exact Hin | apply String.eqb_refl]. }
  congruence.
Qed.

Lemma NoDup_map_append (pre : string) (l : list string) :
  NoDup l -> NoDup (map (append pre) l).
Proof.
  induction 1 as [|x l Hx Hl IH]; cbn [map]; constructor; [|exact IH].
  rewrite in_map_iff. intros (y & Hy & Hin).
  apply append_inj_l in Hy. now subst y.
Qed.

(** URLs whose base names are plain and distinct go to distinct local
    files, whatever the folder. *)
Lemma names_distinct_paths (urls names : list string) (folderPath : string) :
  map getFilenameFromURL urls = names ->
  forallb plainName names = true ->
  distinct names = true ->
  NoDup (map getFilenameFromURL urls)
  /\ NoDup (map (fun u => Filepath.Join [folderPath; getFilenameFromURL u]) urls).
Proof.
  intros Hnames Hplain Hdistinct.
  pose proof (distinct_NoDup names Hdistinct) as Hnodup.
  split; [now rewrite Hnames|].
  destruct (Join_plainName folderPath) as [pre Hpre].
  rewrite <- (map_map getFilenameFromURL (fun f => Filepath.Join [folderPath; f])).
  rewrite Hnames.
  rewrite (map_ext_in _ (append pre)).
  - now apply NoDup_map_append.
  - intros f Hf. apply Hpre.
    rewrite forallb_forall in Hplain. now apply Hplain.
Qed.

(** An accepted model version resolves, to URLs with distinct base
    names and distinct local paths. *)
Lemma resolved_names :
  forall linkType baseURL modelVersion folderPath : string,
    accepted linkType modelVersion = true ->
    exists urls,
      getURLsForModel linkType baseURL modelVersion = ([], Ret urls)
      /\ NoDup (map getFilenameFromURL urls)
      /\ NoDup (map (fun u => Filepath.Join [folderPath; getFilenameFromURL u]) urls).
Proof.
  intros lt baseURL mv folderPath Hacc.
  unfold accepted, isFalcon, isLlama in Hacc. cbn [existsb] in Hacc.
  unfold getURLsForModel, PublicLink.
  destruct (lt =?s "public").
  - repeat (apply orb_prop in Hacc; destruct Hacc as [Hacc | Hacc]);
      try discriminate Hacc; apply String.eqb_eq in Hacc; subst mv;
      eexists; (split; [reflexivity|]);
      (eapply names_distinct_paths; [vm_compute; reflexivity | reflexivity..]).
  - repeat (apply orb_prop in Hacc; destruct Hacc as [Hacc | Hacc]);
      try discriminate Hacc; apply String.eqb_eq in Hacc; subst mv.
    + exists (onServer baseURL "llama-2-7b" llama7bFiles).
      split; [reflexivity|].
      now apply (names_distinct_paths _ llama7bFiles); [apply onServer_names|..].
    + exists (onServer baseURL "llama-2-7b-chat" llama7bFiles).
      split; [reflexivity|].
      now apply (names_distinct_paths _ llama7bFiles); [apply onServer_names|..].
    + exists (onServer baseURL "llama-2-13b" llama13bFiles).
      split; [reflexivity|].
      now apply (names_distinct_paths _ llama13bFiles); [apply onServer_names|..].
    + exists (onServer baseURL "llama-2-13b-chat" llama13bFiles).
      split; [reflexivity|].
      now apply (names_distinct_paths _ llama13bFiles); [apply onServer_names|..].
    + exists (onServer baseURL "llama-2-70b" llama70bFiles).
      split; [reflexivity|].
      now apply (names_distinct_paths _ llama70bFiles); [apply onServer_names|..].
    + exists (onServer baseURL "llama-2-70b-chat" llama70bFiles).
      split; [reflexivity|].
      now apply (names_distinct_paths _ llama70bFiles); [apply onServer_names|..].
Qed.

(** C10. For every accepted model version, under either link type and
    with any base URL, the resolver returns a list whose base names
    are pairwise distinct; joined to any output directory they are
    pairwise distinct local paths. *)
Theorem resolved_files_distinct :
  forall linkType baseURL modelVersion folderPath : string,
    accepted linkType modelVersion = true ->
    exists urls,
      getURLsForModel linkType baseURL modelVersion = ([], Ret urls)
      /\ NoDup (map getFilenameFromURL urls)
      /\ NoDup (map (fun u => Filepath.Join [folderPath; getFilenameFromURL u]) urls).
Proof.
  intros linkType baseURL modelVersion folderPath Hacc.
  exact (resolved_names linkType baseURL modelVersion folderPath Hacc).
Qed.

Lemma resolved_files_distinct_witness :
  exists urls,
    getURLsForModel "private" "http://10.0.0.1:8080/download/" "llama-2-70b"
    = ([], Ret urls)
    /\ NoDup (map getFilenameFromURL urls)
    /\ NoDup (map (fun u => Filepath.Join ["/workspace/weights"; getFilenameFromURL u])
                urls).
Proof.
  apply (resolved_files_distinct "private" "http://10.0.0.1:8080/download/"
           "llama-2-70b" "/workspace/weights").
  reflexivity.
Defined.

(** ** The tasks and the barrier *)

Section Barrier.

Import Sched.

Variable os : OS.

Lemma copyEvents_no_WgDone (fp : string) (t : list Event) :
  forallb (isCopyEvent fp) t = true -> existsb isWgDone t = false.
Proof.
  induction t as [|e t IH]; [reflexivity|].
  cbn [forallb existsb]. intros H.
  apply andb_prop in H. destruct H as [He Ht].
  rewrite (IH Ht). destruct e; try discriminate He; reflexivity.
Qed.


(** A task starts pending and in shape. *)
Lemma spawn_taskInv (folderPath url token : string) :
  taskInv (spawn os folderPath url token)
  /\ pending (spawn os folderPath url token) = true.
Proof.
  unfold taskInv, pending, spawn. cbn [todo ending].
  pose proof (downloadFile_cases os folderPath url token) as Hc.
  cbv zeta in Hc.
  set (fp := Filepath.Join [folderPath; getFilenameFromURL url]) in *.
  destruct (os_Create os fp) as [err|];
    [rewrite Hc; cbn; auto|].
  destruct (http_NewRequest os "GET" url) as [err|];
    [rewrite Hc; cbn; auto|].
  destruct (client_Do os (requestFor url token)) as [resp|err];
    [|rewrite Hc; cbn; auto].
  pose proof (copyEvents_no_WgDone fp _
                (io_Copy_events os fp (Body resp) (BodyErr resp)
                   (freshCounter fp (ContentLength resp)))) as Hev.
  destruct (result (io_Copy os fp (freshCounter fp (ContentLength resp))
                      (Body resp) (BodyErr resp))) as [[e|] | |];
    try contradiction; rewrite Hc; cbn [trace result fst snd].
  - split; [|reflexivity]. split; [reflexivity|].
    cbn [existsb isWgDone orb]. rewrite existsb_app, Hev. reflexivity.
  - split; [|reflexivity]. right.
    eexists (EvCreate fp :: EvDo (requestFor url token) :: _ ++ [EvBodyClose; EvFileClose fp])%list.
    split.
    + cbn [app]. rewrite <- app_assoc. reflexivity.
    + cbn [existsb isWgDone orb]. rewrite existsb_app, Hev. reflexivity.
Qed.


(** *** Lists of tasks *)

Lemma replace_launch (ts : list Task) (i : nat) (t t' : Task) :
  nth_error ts i = Some t -> launch t' = launch t ->
  map launch (replace ts i t') = map launch ts.
Proof.
  revert i. induction ts as [|x ts IH]; intros [|i] Hnth Hl; try discriminate.
  - cbn in Hnth. injection Hnth as ->. cbn. now rewrite Hl.
  - cbn in *. f_equal. now apply IH.
Qed.

Lemma replace_Forall (P : Task -> Prop) (ts : list Task) (i : nat) (t' : Task) :
  Forall P ts -> P t' -> Forall P (replace ts i t').
Proof.
  intros Hts Ht'. revert i.
  induction Hts as [|x ts Hx Hts IH]; intros [|i]; cbn; auto.
Qed.

Lemma replace_owed (ts : list Task) (i : nat) (t t' : Task) :
  nth_error ts i = Some t ->
  owed (replace ts i t')
  = owed ts - (if pending t then 1 else 0) + (if pending t' then 1 else 0).
Proof.
  unfold owed. revert i.
  induction ts as [|x ts IH]; intros [|i] Hnth; try discriminate.
  - cbn in Hnth. injection Hnth as ->. cbn [replace filter].
    destruct (pending t), (pending t'); cbn [length]; lia.
  - cbn in Hnth. specialize (IH i Hnth). cbn [replace filter].
    destruct (pending x); cbn [length]; lia.
Qed.

Lemma owed_zero (ts : list Task) (i : nat) (t : Task) :
  owed ts = 0 -> nth_error ts i = Some t -> pending t = false.
Proof.
  unfold owed. revert i.
  induction ts as [|x ts IH]; intros [|i] H0 Hnth; try discriminate.
  - cbn in Hnth. injection Hnth as ->. cbn [filter] in H0.
    destruct (pending t); [cbn in H0; lia | reflexivity].
  - cbn in Hnth. cbn [filter] in H0.
    destruct (pending x); [cbn in H0; lia | now apply (IH i)].
Qed.

Lemma owed_zero_finished (ts : list Task) :
  owed ts = 0 -> Forall finished ts.
Proof.
  unfold owed. induction ts as [|x ts IH]; [constructor|].
  cbn [filter]. destruct (pending x) eqn:Hp; [cbn; lia|].
  intros H0. constructor; [|exact (IH H0)].
  unfold pending in Hp. unfold finished.
  destruct (ending x) as [[]| |]; try discriminate Hp.
  destruct (todo x); [split; reflexivity | discriminate Hp].
Qed.

Lemma owed_snoc (ts : list Task) (t : Task) :
  pending t = true -> owed (ts ++ [t]) = owed ts + 1.
Proof.
  intros Hp. unfold owed. rewrite filter_app, length_app. cbn [filter].
  rewrite Hp. cbn [length]. lia.
Qed.

(** Popping the first event of a task in shape. *)
Lemma taskInv_pop (t : Task) (e : Event) (rest : list Event) :
  taskInv t -> todo t = e :: rest ->
  let t' := {| t_folder := t_folder t; t_url := t_url t; t_token := t_token t;
               todo := rest; ending := ending t |} in
  taskInv t'
  /\ pending t = true
  /\ pending t' = negb (isWgDone e).
Proof.
  unfold taskInv, pending. intros Hinv Htodo. cbn [todo ending].
  rewrite Htodo in *.
  destruct (ending t) as [[] | c | msg]; [ | | contradiction].
  - destruct Hinv as [Hnil | (before & Hb & Hno)]; [discriminate|].
    destruct before as [|b before]; cbn [app] in Hb; injection Hb as -> ->.
    + repeat split. now left.
    + cbn [existsb] in Hno. apply orb_false_elim in Hno.
      destruct Hno as [Hb Hno]. rewrite Hb.
      split; [right; eauto|].
      split; [reflexivity|].
      destruct before; reflexivity.
  - destruct Hinv as [-> Hno]. cbn [existsb] in Hno.
    apply orb_false_elim in Hno. destruct Hno as [He Hno].
    rewrite He. repeat split; assumption.
Qed.

End Barrier.

(** ** The shape of a run of [main] *)

Lemma getURLsForModel_outcomes (linkType baseURL modelVersion : string) :
  (exists urls, getURLsForModel linkType baseURL modelVersion = ([], Ret urls))
  \/ (exists msg, getURLsForModel linkType baseURL modelVersion = ([EvLog msg], Exit 1)).
Proof.
  split_model; cbn [orb]; unfold ret, log_Fatal; eauto.
Qed.

Lemma launches_go (dir tok : string) (urls : list string) :
  launches (map (fun u => EvGo dir u tok) urls ++ [EvWait])
  = map (fun u => (dir, u, tok)) urls.
Proof.
  induction urls as [|u urls IH]; [reflexivity|].
  cbn [map app launches]. now rewrite IH.
Qed.

Lemma existsb_rev {A} (f : A -> bool) (l : list A) :
  existsb f (rev l) = existsb f l.
Proof.
  induction l as [|x l IH]; [reflexivity|].
  cbn [rev existsb]. rewrite existsb_app, IH. cbn [existsb].
  rewrite orb_false_r. apply orb_comm.
Qed.

Lemma endsInWait_split (t : list Event) :
  endsInWait t = true <->
  exists before, t = (before ++ [EvWait])%list /\ existsb isWait before = false.
Proof.
  unfold endsInWait. split.
  - destruct (rev t) as [|e r] eqn:E; [discriminate|].
    destruct e; try discriminate. intros H. apply negb_true_iff in H.
    exists (rev r). split.
    + rewrite <- (rev_involutive t), E. reflexivity.
    + rewrite existsb_rev. exact H.
  - intros (before & -> & H). rewrite rev_app_distr. cbn.
    rewrite existsb_rev, H. reflexivity.
Qed.

Lemma endsInWait_cons (e : Event) (t : list Event) :
  isWait e = false -> endsInWait t = true -> endsInWait (e :: t) = true.
Proof.
  intros He Ht. apply endsInWait_split in Ht.
  destruct Ht as (before & -> & Hb).
  apply endsInWait_split. exists (e :: before).
  split; [reflexivity|]. cbn. now rewrite He, Hb.
Qed.

Lemma endsInWait_go (dir tok : string) (urls : list string) :
  endsInWait (map (fun u => EvGo dir u tok) urls ++ [EvWait]) = true.
Proof.
  apply endsInWait_split. eexists. split; [reflexivity|].
  induction urls as [|u urls IH]; [reflexivity | exact IH].
Qed.

(** A run of [main] that returns ends at its one [wg.Wait()], after
    one [go] per URL that the resolver returned, in order; a run that
    does not return has started no task, and exits with code 1. *)
Lemma main_outcomes (os : OS) :
  match result (main os) with
  | Ret _ =>
      endsInWait (trace (main os)) = true
      /\ exists linkType baseURL modelVersion dir tok urls,
           getURLsForModel linkType baseURL modelVersion = ([], Ret urls)
           /\ launches (trace (main os)) = map (fun u => (dir, u, tok)) urls
  | Exit c => c = 1 /\ launches (trace (main os)) = []
  | Panic _ => launches (trace (main os)) = []
  end.
Proof.
  split_args os; try (cbn; auto; fail).
  split_dir os; split_private os; try (cbn; auto; fail).
  all: cbn [bind emit ret app].
  all: match goal with
       | |- context [getURLsForModel ?lt ?base ?mv] =>
           destruct (getURLsForModel_outcomes lt base mv) as [[urls Hres] | [msg Hres]];
           rewrite Hres
       end.
  all: cbn [bind emit ret log_Fatal app]; rewrite ?forEach_emit;
       cbn [result trace fst snd app]; try (cbn; auto; fail).
  all: split;
    [ repeat (apply endsInWait_cons; [reflexivity|]); apply endsInWait_go
    | do 5 eexists; exists urls; split; [exact Hres|];
      cbn [launches]; apply launches_go ].
Qed.

(** ** The invariant of the process *)

Section Invariant.

Import Sched.

Variable os : OS.

Lemma Inv_init : Inv os (init os).
Proof.
  constructor; cbn [init main_todo wg tasks exited map app].
  - reflexivity.
  - constructor.
  - reflexivity.
  - unfold mainInv. cbn [main_todo wg init].
    pose proof (main_outcomes os) as Hm.
    destruct (result (main os)) as [[] | c | msg]; [ | tauto | exact I].
    left. apply endsInWait_split. tauto.
  - discriminate.
Qed.

(** The main goroutine moves past an event that is neither a [go]
    nor the wait. *)
Lemma mainInv_pop (s s' : State) (e : Event) (rest : list Event) :
  mainInv os s ->
  main_todo s = e :: rest ->
  main_todo s' = rest ->
  (isWait e = true -> wg s' = 0) ->
  mainInv os s'.
Proof.
  unfold mainInv. intros Hinv Htodo Htodo' Hwait.
  destruct (result (main os)) as [[] | c | msg]; try assumption.
  destruct Hinv as [(before & Hb & Hno) | [Hnil _]];
    [|rewrite Htodo in Hnil; discriminate].
  rewrite Htodo in Hb. rewrite Htodo'.
  destruct before as [|b before]; cbn [app] in Hb; injection Hb as -> ->.
  - right. split; [reflexivity | now apply Hwait].
  - cbn [existsb] in Hno. apply orb_false_elim in Hno.
    left. exists before. tauto.
Qed.

Lemma Inv_stepMain (s s' : State) :
  Inv os s -> exited s = None -> stepMain os s = Some s' -> Inv os s'.
Proof.
  intros [Hl Ht Hw Hm He] Hexit Hstep. unfold stepMain in Hstep.
  destruct (main_todo s) as [|e rest] eqn:Htodo.
  - injection Hstep as <-.
    constructor; cbn [main_todo wg tasks exited].
    + exact Hl.
    + exact Ht.
    + exact Hw.
    + unfold mainInv in *. cbn [main_todo wg]. now rewrite Htodo in Hm.
    + intros Hcode. split; [reflexivity|].
      unfold mainInv in Hm.
      destruct (result (main os)) as [[] | c | msg]; cbn in Hcode.
      * destruct Hm as [(before & Hb & _) | [_ H0]]; [|exact H0].
        rewrite Htodo in Hb. destruct before; discriminate Hb.
      * subst c. discriminate Hcode.
      * discriminate Hcode.
  - assert (Hplain : forall s1,
               main_todo s1 = rest -> wg s1 = wg s -> tasks s1 = tasks s ->
               exited s1 = None -> isGo e = false ->
               (isWait e = true -> wg s = 0) -> Inv os s1).
    { intros s1 H1 H2 H3 H4 Hgo Hwait.
      constructor; rewrite ?H1, ?H2, ?H3, ?H4; try assumption.
      - destruct e; try discriminate Hgo; exact Hl.
      - apply (mainInv_pop s s1 e rest Hm Htodo H1).
        intros Hwe. rewrite H2. now apply Hwait.
      - discriminate. }
    destruct e;
      try (injection Hstep as <-;
           apply Hplain; try reflexivity; discriminate).
    + (* go *)
      injection Hstep as <-.
      destruct (spawn_taskInv os folderPath url token) as [Hti Hp].
      constructor; cbn [main_todo wg tasks exited].
      * cbn [launches] in Hl.
        rewrite map_app, <- app_assoc. exact Hl.
      * apply Forall_app. split; [exact Ht | now constructor].
      * rewrite (owed_snoc _ _ Hp). lia.
      * apply (mainInv_pop s _ _ rest Hm Htodo); [reflexivity | discriminate].
      * discriminate.
    + (* wait *)
      destruct (wg s =? 0) eqn:Hz; [|discriminate Hstep].
      apply Z.eqb_eq in Hz. injection Hstep as <-.
      apply Hplain; try reflexivity. intros _. exact Hz.
Qed.

Lemma Inv_stepTask (s s' : State) (i : nat) :
  Inv os s -> exited s = None -> stepTask s i = Some s' -> Inv os s'.
Proof.
  intros [Hl Ht Hw Hm He] Hexit Hstep. unfold stepTask in Hstep.
  destruct (nth_error (tasks s) i) as [t|] eqn:Hnth; [|discriminate].
  assert (Hti : taskInv t).
  { rewrite Forall_forall in Ht. apply Ht. eapply nth_error_In. exact Hnth. }
  destruct (todo t) as [|e rest] eqn:Htodo.
  - (* the task ends the process *)
    assert (Hs' : exists c, c <> 0 /\
                  s' = {| main_todo := main_todo s; wg := wg s; tasks := tasks s;
                          exited := Some c; out := out s |}).
    { unfold taskInv in Hti.
      destruct (ending t) as [[] | c | msg]; [discriminate | | contradiction].
      destruct Hti as [-> _]. injection Hstep as <-.
      exists 1. split; [discriminate | reflexivity]. }
    destruct Hs' as (c & Hc & ->).
    constructor; cbn [main_todo wg tasks exited]; try assumption.
    intros [= Hcode]. contradiction.
  - injection Hstep as <-.
    destruct (taskInv_pop t e rest Hti Htodo) as (Hti' & Hp & Hp').
    cbv zeta in Hti', Hp'.
    constructor; cbn [main_todo wg tasks exited].
    + rewrite (replace_launch _ _ t); [exact Hl | exact Hnth | reflexivity].
    + now apply replace_Forall.
    + rewrite (replace_owed _ _ t _ Hnth), Hp, Hp'.
      destruct (isWgDone e); cbn [negb]; lia.
    + unfold mainInv in *. cbn [main_todo wg].
      destruct (result (main os)) as [[] | c | msg]; try assumption.
      destruct Hm as [Hbefore | [_ H0]]; [now left|].
      rewrite Hw in H0.
      rewrite (owed_zero _ _ _ H0 Hnth) in Hp. discriminate Hp.
    + discriminate.
Qed.

Lemma Inv_exec (cs : list Choice) :
  forall s s', Inv os s -> exec os s cs = Some s' -> Inv os s'.
Proof.
  induction cs as [|c cs IH]; intros s s' Hinv Hexec; cbn [exec] in Hexec.
  - now injection Hexec as <-.
  - destruct (step os s c) as [s1|] eqn:Hstep; [|discriminate].
    apply (IH s1 s'); [|exact Hexec].
    unfold step in Hstep.
    destruct (exited s) eqn:Hexit; [discriminate|].
    destruct c as [|i].
    + now apply (Inv_stepMain s).
    + now apply (Inv_stepTask s s1 i).
Qed.

Lemma Inv_reachable (s : State) : reachable os s -> Inv os s.
Proof.
  intros [cs Hcs]. exact (Inv_exec cs _ _ Inv_init Hcs).
Qed.

End Invariant.

(** ** One task per URL, and the barrier *)




(** ** Shards: [falconModelURLs] for any count *)

Section Shards.

Lemma digit_cases (d : Z) :
  0 <= d < 10 ->
  d = 0 \/ d = 1 \/ d = 2 \/ d = 3 \/ d = 4 \/ d = 5 \/ d = 6 \/ d = 7
  \/ d = 8 \/ d = 9.
Proof. lia. Qed.

Lemma digit_value (d : Z) :
  0 <= d < 10 -> Z.of_nat (nat_of_ascii (Fmt.digit d)) - 48 = d.
Proof.
  intros H.
  destruct (digit_cases d H) as [-> | [-> | [-> | [-> | [-> | [-> | [-> | [-> | [-> | ->]]]]]]]]];
    reflexivity.
Qed.

Lemma digit_noSeparator (d : Z) :
  0 <= d < 10 -> Filepath.IsPathSeparator (Fmt.digit d) = false.
Proof.
  intros H.
  destruct (digit_cases d H) as [-> | [-> | [-> | [-> | [-> | [-> | [-> | [-> | [-> | ->]]]]]]]]];
    reflexivity.
Qed.

(** The digit loop writes [u]: reading its output back, the digits
    give [u] and the rest is read from there. *)
Lemma readDigits_digits (fuel : nat) :
  forall (u : Z) (acc : string),
    0 <= u < 10 ^ Z.of_nat fuel ->
    readDigits (Fmt.digits fuel u acc) 0 = readDigits acc u.
Proof.
  induction fuel as [|fuel IH]; intros u acc Hu.
  - cbn in Hu. assert (u = 0) by lia. subst u. reflexivity.
  - cbn [Fmt.digits]. destruct (u <? 10) eqn:Hlt.
    + apply Z.ltb_lt in Hlt. cbn [readDigits].
      rewrite digit_value by lia. f_equal; lia.
    + apply Z.ltb_ge in Hlt.
      rewrite Nat2Z.inj_succ, Z.pow_succ_r in Hu by lia.
      rewrite IH.
      * cbn [readDigits].
        rewrite digit_value by (apply Z.mod_pos_bound; lia).
        f_equal. pose proof (Z.div_mod u 10 ltac:(lia)). lia.
      * split; [apply Z.div_pos; lia|].
        apply Z.div_lt_upper_bound; lia.
Qed.

Lemma readDigits_zeros (k : nat) (s : string) :
  readDigits (Fmt.zeros k s) 0 = readDigits s 0.
Proof. induction k as [|k IH]; [reflexivity | exact IH]. Qed.

(** [%05d] of a number that is not negative reads back as the number. *)
Lemma readDigits_d05 (v : Z) :
  0 <= v < 10 ^ 20 -> readDigits (Fmt.d05 v) 0 = v.
Proof.
  intros Hv. unfold Fmt.d05, Fmt.pad.
  assert (Hneg : (v <? 0) = false) by (apply Z.ltb_ge; lia).
  rewrite Hneg, readDigits_zeros, Z.abs_eq by lia.
  rewrite readDigits_digits; [reflexivity|].
  change (Z.of_nat 20) with 20. exact Hv.
Qed.

Lemma noSeparator_digits (fuel : nat) :
  forall (u : Z) (acc : string),
    0 <= u -> noSeparator acc = true ->
    noSeparator (Fmt.digits fuel u acc) = true.
Proof.
  induction fuel as [|fuel IH]; intros u acc Hu Hacc; [exact Hacc|].
  cbn [Fmt.digits]. destruct (u <? 10) eqn:Hlt.
  - apply Z.ltb_lt in Hlt. cbn [noSeparator].
    rewrite digit_noSeparator by lia. exact Hacc.
  - apply IH; [apply Z.div_pos; lia|].
    cbn [noSeparator].
    rewrite digit_noSeparator by (apply Z.mod_pos_bound; lia). exact Hacc.
Qed.

Lemma noSeparator_zeros (k : nat) (s : string) :
  noSeparator s = true -> noSeparator (Fmt.zeros k s) = true.
Proof. intros Hs. induction k as [|k IH]; [exact Hs | exact IH]. Qed.

Lemma noSeparator_d05 (v : Z) : 0 <= v -> noSeparator (Fmt.d05 v) = true.
Proof.
  intros Hv. unfold Fmt.d05, Fmt.pad.
  assert (Hneg : (v <? 0) = false) by (apply Z.ltb_ge; lia).
  rewrite Hneg. apply noSeparator_zeros, noSeparator_digits;
    [lia | reflexivity].
Qed.

Lemma noSeparator_append (a b : string) :
  noSeparator a = true -> noSeparator b = true -> noSeparator (a ++ b) = true.
Proof.
  intros Ha Hb. induction a as [|c a IH]; [exact Hb|].
  cbn [noSeparator append] in *.
  apply andb_prop in Ha. destruct Ha as [Hc Ha].
  now rewrite Hc, (IH Ha).
Qed.

Lemma length_append (a b : string) :
  String.length (a ++ b) = (String.length a + String.length b)%nat.
Proof. induction a as [|c a IH]; [reflexivity | cbn; now rewrite IH]. Qed.

Lemma append_inj_r (a b r : string) : a ++ r = b ++ r -> a = b.
Proof.
  revert b. induction a as [|c a IH]; intros [|d b] H.
  - reflexivity.
  - exfalso. apply (f_equal String.length) in H.
    cbn [append String.length] in H. rewrite length_append in H. lia.
  - exfalso. apply (f_equal String.length) in H.
    cbn [append String.length] in H. rewrite length_append in H. lia.
  - cbn [append] in H. injection H as -> H. f_equal. now apply IH.
Qed.

Lemma shardName_plain (i count : Z) :
  0 <= i -> 0 <= count ->
  shardName i count <> "" /\ noSeparator (shardName i count) = true.
Proof.
  intros Hi Hc. split; [discriminate|].
  unfold shardName.
  repeat (apply noSeparator_append;
          [first [reflexivity | now apply noSeparator_d05] | ]).
  reflexivity.
Qed.

Lemma shardName_inj (i j count : Z) :
  0 <= i < 10 ^ 20 -> 0 <= j < 10 ^ 20 ->
  shardName i count = shardName j count -> i = j.
Proof.
  intros Hi Hj H. unfold shardName in H.
  apply append_inj_l, append_inj_r in H.
  rewrite <- (readDigits_d05 i Hi), <- (readDigits_d05 j Hj).
  now rewrite H.
Qed.

(** X1. For every model version and every count below the largest
    [int] (where the loop counter does not wrap), [falconModelURLs]
    returns [count] URLs, none when the count is zero or negative; they
    are pairwise distinct, and their base names are the shard names
    pytorch_model-<i>-of-<count>.bin for i = 1 .. count in ascending
    order, each index and the count written with [%05d]. *)
Theorem falconModelURLs_shards :
  forall (modelVersion : string) (count : Z),
    count < 2 ^ 63 - 1 ->
    length (falconModelURLs modelVersion count) = Z.to_nat count
    /\ map getFilenameFromURL (falconModelURLs modelVersion count)
       = shardNames count
    /\ NoDup (shardNames count)
    /\ NoDup (falconModelURLs modelVersion count).
Proof.
  intros mv count Hcount.
  assert (Hbase : map getFilenameFromURL (falconModelURLs mv count)
                  = shardNames count).
  { unfold falconModelURLs, shardNames. rewrite map_map.
    apply map_ext_in. intros i Hi. apply in_seq in Hi.
    destruct (shardName_plain (Z.of_nat i) count) as [Hne Hsep]; [lia | lia |].
    unfold getFilenameFromURL.
    replace ("https://huggingface.co/" ++ mv ++ "/resolve/main/"
               ++ shardName (Z.of_nat i) count)
      with (("https://huggingface.co/" ++ mv ++ "/resolve/main")
              ++ "/" ++ shardName (Z.of_nat i) count)
      by (rewrite <- !append_assoc; reflexivity).
    now apply Base_file. }
  assert (Hnames : NoDup (shardNames count)).
  { unfold shardNames.
    assert (Hgen : forall l : list nat,
               NoDup l -> Forall (fun i => Z.of_nat i < 10 ^ 20) l ->
               NoDup (map (fun i : nat => shardName (Z.of_nat i) count) l)).
    { induction 1 as [|i l Hi Hl IH]; intros Hall; cbn [map]; constructor.
      - rewrite in_map_iff. intros (j & Hj & Hin).
        inversion Hall as [|? ? Hib Hlb]; subst.
        rewrite Forall_forall in Hlb. specialize (Hlb j Hin).
        apply shardName_inj in Hj; [|lia|lia].
        apply Nat2Z.inj in Hj. now subst j.
      - apply IH. now inversion Hall. }
    apply Hgen; [apply seq_NoDup|].
    apply Forall_forall. intros i Hi. apply in_seq in Hi.
    assert (2 ^ 63 < 10 ^ 20) by reflexivity. lia. }
  split; [|split; [exact Hbase | split; [exact Hnames|]]].
  - unfold falconModelURLs. now rewrite length_map, length_seq.
  - apply (NoDup_map_inv getFilenameFromURL). now rewrite Hbase.
Qed.

Lemma falconModelURLs_shards_witness :
  length (falconModelURLs "tiiuae/falcon-40b" 9) = 9%nat
  /\ map getFilenameFromURL (falconModelURLs "tiiuae/falcon-40b" 9) = shardNames 9
  /\ NoDup (shardNames 9)
  /\ NoDup (falconModelURLs "tiiuae/falcon-40b" 9).
Proof.
  apply (falconModelURLs_shards "tiiuae/falcon-40b" 9). reflexivity.
Defined.

End Shards.

(** ** The resolver on every input *)

(** The resolver on every input: what it returns or how it exits. *)
Lemma getURLsForModel_cases :
  forall linkType baseURL modelVersion : string,
    match getURLsForModel linkType baseURL modelVersion with
    | (t, Ret urls) =>
        accepted linkType modelVersion = true
        /\ t = []
        /\ (2 <= length urls <= 17)%nat
    | (t, Exit c) =>
        accepted linkType modelVersion = false
        /\ c = 1
        /\ exists msg, t = [EvLog msg]
    | (_, Panic _) => False
    end.
Proof.
  intros lt baseURL mv.
  unfold accepted, isFalcon, isLlama, getURLsForModel, getPrivateURLsForModel,
    PublicLink.
  cbn [existsb].
  destruct (lt =?s "public");
    repeat match goal with
           | |- context [?a =?s ?b] => destruct (a =?s b); cbn [orb]
           end;
    cbn [ret log_Fatal]; repeat split;
    try (unfold falconModelURLs, falconCommonURLs;
         rewrite ?length_app, ?length_map, ?length_seq; cbn; lia);
    eauto.
Qed.

(** X2. On every input the resolver either returns or exits, it never
    panics.  It returns exactly for the accepted model versions, then
    without any event and with a list of 2 to 17 URLs; otherwise it
    exits with code 1 after one line of the log. *)
Theorem getURLsForModel_total :
  forall linkType baseURL modelVersion : string,
    match getURLsForModel linkType baseURL modelVersion with
    | (t, Ret urls) =>
        accepted linkType modelVersion = true
        /\ t = []
        /\ (2 <= length urls <= 17)%nat
    | (t, Exit c) =>
        accepted linkType modelVersion = false
        /\ c = 1
        /\ exists msg, t = [EvLog msg]
    | (_, Panic _) => False
    end.
Proof.
  intros linkType baseURL modelVersion.
  exact (getURLsForModel_cases linkType baseURL modelVersion).
Qed.

(** The private lists, by version. *)
Lemma getPrivateURLsForModel_llama (baseURL modelVersion : string) :
  isLlama modelVersion = true ->
  getPrivateURLsForModel baseURL modelVersion
  = ([], Ret (onServer baseURL modelVersion (llamaFiles modelVersion))).
Proof.
  unfold isLlama. cbn [existsb]. intros H.
  repeat (apply orb_prop in H; destruct H as [H | H]);
    try discriminate H; apply String.eqb_eq in H; subst modelVersion;
    reflexivity.
Qed.

Lemma isLlama_not_falcon (modelVersion : string) :
  isLlama modelVersion = true -> isFalcon modelVersion = false.
Proof.
  unfold isLlama. cbn [existsb]. intros H.
  repeat (apply orb_prop in H; destruct H as [H | H]);
    try discriminate H; apply String.eqb_eq in H; subst modelVersion;
    reflexivity.
Qed.

(** ** Runs of [main] by link type *)

Lemma existsb_go (f : Event -> bool) (dir tok : string) (urls : list string) :
  (forall u, f (EvGo dir u tok) = false) -> f EvWait = false ->
  existsb f (map (fun u => EvGo dir u tok) urls ++ [EvWait]) = false.
Proof.
  intros Hgo Hwait. induction urls as [|u urls IH]; cbn [map app existsb].
  - now rewrite Hwait.
  - now rewrite Hgo, IH.
Qed.

(** The request that a task sends is the one [requestFor] describes. *)
Lemma downloadFile_request (os : OS) (folderPath url token : string) (req : Request) :
  In (EvDo req) (trace (downloadFile os folderPath url token)) ->
  req = requestFor url token.
Proof.
  intros Hin.
  pose proof (downloadFile_cases os folderPath url token) as Hc.
  cbv zeta in Hc.
  set (fp := Filepath.Join [folderPath; getFilenameFromURL url]) in *.
  destruct (os_Create os fp) as [err|].
  { rewrite Hc in Hin. cbn in Hin. intuition discriminate. }
  destruct (http_NewRequest os "GET" url) as [err|].
  { rewrite Hc in Hin. cbn in Hin. intuition discriminate. }
  destruct (client_Do os (requestFor url token)) as [resp|err].
  2: { rewrite Hc in Hin. cbn in Hin.
       destruct Hin as [H | [H | [H | []]]]; try discriminate H.
       now injection H as <-. }
  pose proof (io_Copy_events os fp (Body resp) (BodyErr resp)
                (freshCounter fp (ContentLength resp))) as Hev.
  rewrite forallb_forall in Hev.
  assert (Hrest : forall t',
             (forall e, In e t' -> isDo e = false) ->
             In (EvDo req)
               (EvCreate fp :: EvDo (requestFor url token)
                  :: trace (io_Copy os fp (freshCounter fp (ContentLength resp))
                              (Body resp) (BodyErr resp)) ++ t')%list ->
             req = requestFor url token).
  { intros t' Ht' [H | [H | H]]; [discriminate H | now injection H as <- |].
    apply in_app_or in H. destruct H as [H | H].
    - apply Hev in H. discriminate H.
    - apply Ht' in H. discriminate H. }
  destruct (result (io_Copy os fp (freshCounter fp (ContentLength resp))
                      (Body resp) (BodyErr resp))) as [[err|] | |];
    try contradiction; rewrite Hc in Hin; cbn [trace fst] in Hin;
    refine (Hrest _ _ Hin); intros ev Hev'; cbn in Hev';
    intuition (subst; reflexivity).
Qed.

Lemma dirReady_ensured (os : OS) (dir : string) :
  dirReady os dir ->
  exists t, ensureDirExists os dir = (EvStat dir :: t, Ret tt)
            /\ (t = [] \/ t = [EvMkdirAll dir 493]).
Proof.
  unfold dirReady, ensureDirExists. intros Hready.
  destruct (os_Stat os dir); [eexists; split; [reflexivity | now left] | |
                              eexists; split; [reflexivity | now left]].
  destruct (os_MkdirAll os dir 493) as [err|].
  - destruct Hready as [H | H]; [contradiction | discriminate].
  - eexists. split; [reflexivity | now right].
Qed.

(** X3. A link type that is neither "public" nor "private" is not
    rejected.  With a llama model version and the directory in place,
    [main] returns after starting one task per file of the version,
    with the URL [modelVersion/file] (the base URL is empty) and the
    empty token; the environment is not read, and the arguments after
    the output directory, however many, are ignored. *)
Theorem main_unnamed_link_type :
  forall (os : OS) (prog link model dir : string) (more : list string),
    os_Args os = prog :: link :: model :: dir :: more ->
    link <> "public" ->
    link <> "private" ->
    isLlama model = true ->
    dirReady os dir ->
    result (main os) = Ret tt
    /\ launches (trace (main os))
       = map (fun u => (dir, u, "")) (onServer "" model (llamaFiles model))
    /\ existsb isGetenv (trace (main os)) = false.
Proof.
  intros os prog link model dir more Hos Hpub Hpriv Hllama Hready.
  destruct (dirReady_ensured os dir Hready) as (t & Hens & Ht).
  apply String.eqb_neq in Hpub, Hpriv.
  unfold main, index. rewrite Hos.
  cbn [length Nat.ltb Nat.leb nth_error]. rewrite !bind_ret_l, Hens.
  unfold PrivateLink. rewrite Hpriv.
  unfold getURLsForModel, PublicLink. rewrite Hpub.
  cbn [bind emit ret app].
  rewrite (getPrivateURLsForModel_llama "" model Hllama).
  cbn [bind emit ret app]. rewrite forEach_emit.
  cbn [bind emit ret result trace fst snd app].
  split; [reflexivity|].
  destruct Ht as [-> | ->]; cbn [app launches existsb isGetenv orb];
    (split; [apply launches_go | now apply existsb_go]).
Qed.

Lemma main_unnamed_link_type_witness :
  result (main os_mirror) = Ret tt
  /\ launches (trace (main os_mirror))
     = map (fun u => ("/workspace/weights", u, ""))
         (onServer "" "llama-2-13b" (llamaFiles "llama-2-13b"))
  /\ existsb isGetenv (trace (main os_mirror)) = false.
Proof.
  apply (main_unnamed_link_type os_mirror "download_script" "mirror"
           "llama-2-13b" "/workspace/weights" ["one"; "two"; "three"]).
  - reflexivity.
  - discriminate.
  - discriminate.
  - reflexivity.
  - left. discriminate.
Defined.

(** X4. A private run with its five arguments, the token in the
    environment, a llama model version and the directory in place:
    [main] reads AUTH_TOKEN_ENV_VAR once, returns after starting one
    task per file of the version, in the order of the list, each with
    the URL http://IP:port/download/modelVersion/file, the output
    directory and the token; and the one request a task with that token
    sends is a GET of the URL whose only header is
    Authorization: Bearer token. *)
Theorem main_private_run :
  forall (os : OS) (prog model dir ip port tok : string),
    os_Args os = [prog; "private"; model; dir; ip; port] ->
    os_Environ os "AUTH_TOKEN_ENV_VAR" = Some tok ->
    tok <> "" ->
    isLlama model = true ->
    dirReady os dir ->
    result (main os) = Ret tt
    /\ launches (trace (main os))
       = map (fun u => (dir, u, tok))
           (onServer ("http://" ++ ip ++ ":" ++ port ++ "/download/") model
              (llamaFiles model))
    /\ length (filter isGetenv (trace (main os))) = 1%nat
    /\ forall url req,
         In (EvDo req) (trace (downloadFile os dir url tok)) ->
         req = {| Method := "GET"; URL := url;
                  Header := [("Authorization", "Bearer " ++ tok)] |}.
Proof.
  intros os prog model dir ip port tok Hos Henv Htok Hllama Hready.
  destruct (dirReady_ensured os dir Hready) as (t & Hens & Ht).
  apply String.eqb_neq in Htok.
  unfold main, index, os_Getenv. rewrite Hos, Henv.
  cbn [length Nat.ltb Nat.leb Nat.eqb negb nth_error]. rewrite !bind_ret_l, Hens.
  change ("private" =?s PrivateLink) with true. cbv iota.
  rewrite Htok.
  change (getURLsForModel "private"
            ("http://" ++ ip ++ ":" ++ port ++ "/download/") model)
    with (getPrivateURLsForModel
            ("http://" ++ ip ++ ":" ++ port ++ "/download/") model).
  cbn [bind emit ret app].
  rewrite (getPrivateURLsForModel_llama _ model Hllama).
  cbn [bind emit ret app]. rewrite forEach_emit.
  cbn [bind emit ret result trace fst snd app].
  split; [reflexivity|].
  split; [|split].
  - destruct Ht as [-> | ->]; cbn [app launches]; apply launches_go.
  - assert (Hgo : forall urls,
               filter isGetenv (map (fun u => EvGo dir u tok) urls ++ [EvWait]) = []).
    { induction urls as [|u urls IH]; [reflexivity | exact IH]. }
    destruct Ht as [-> | ->]; cbn [app filter isGetenv]; now rewrite Hgo.
  - intros url req Hin.
    rewrite (downloadFile_request os dir url tok req Hin).
    unfold requestFor. now rewrite Htok.
Qed.

Lemma main_private_run_witness :
  result (main os_private) = Ret tt
  /\ launches (trace (main os_private))
     = map (fun u => ("/workspace/weights", u, "s3cret"))
         (onServer ("http://" ++ "10.0.0.1" ++ ":" ++ "8080" ++ "/download/")
            "llama-2-70b" (llamaFiles "llama-2-70b"))
  /\ length (filter isGetenv (trace (main os_private))) = 1%nat
  /\ forall url req,
       In (EvDo req) (trace (downloadFile os_private "/workspace/weights" url "s3cret")) ->
       req = {| Method := "GET"; URL := url;
                Header := [("Authorization", "Bearer " ++ "s3cret")] |}.
Proof.
  apply (main_private_run os_private "download_script" "llama-2-70b"
           "/workspace/weights" "10.0.0.1" "8080" "s3cret").
  - reflexivity.
  - reflexivity.
  - discriminate.
  - reflexivity.
  - left. discriminate.
Defined.

(** ** How a run of [main] ends *)

Lemma length_launches_go (dir tok : string) (urls : list string) :
  length (launches (map (fun u => EvGo dir u tok) urls ++ [EvWait])) = length urls.
Proof. now rewrite launches_go, length_map. Qed.

(** The three ways in which a run of [main] ends. *)
Lemma main_cases :
  forall os : OS,
    match main os with
    | (t, Ret _) =>
        endsInWait t = true
        /\ (2 <= length (launches t))%nat
        /\ (4 <= length (os_Args os))%nat
    | (t, Exit c) =>
        c = 1
        /\ endsInLog t = true
        /\ launches t = []
        /\ existsb isWait t = false
        /\ os_Args os <> []
    | (t, Panic _) => t = [] /\ os_Args os = []
    end.
Proof.
  intros os.
  split_args os;
    try (cbn; repeat split; try reflexivity; discriminate).
  split_dir os; split_private os;
    try (cbn; repeat split; try reflexivity; discriminate).
  all: cbn [bind emit ret app].
  all: match goal with
       | |- context [getURLsForModel ?lt ?base ?mv] =>
           pose proof (getURLsForModel_cases lt base mv) as Hres;
           destruct (getURLsForModel lt base mv) as [tr [urls | c | msg]];
           [ destruct Hres as (_ & -> & Hlen)
           | destruct Hres as (_ & -> & msg & ->)
           | contradiction ]
       end.
  all: cbn [bind emit ret log_Fatal app]; rewrite ?forEach_emit;
       cbn [bind emit ret app];
       try (cbn; repeat split; try reflexivity; discriminate).
  all: split;
    [ repeat (apply endsInWait_cons; [reflexivity|]); apply endsInWait_go
    | split; [cbn [launches]; rewrite length_launches_go; lia | cbn; lia] ].
Qed.

(** X5. A run of [main] ends in one of three ways.  It returns at its
    [wg.Wait()], after at least two [go] statements.  Or it exits with
    code 1, with a line of the log as its last event, no task started
    and no wait.  Or it panics, which happens only when [os.Args] is
    empty, before any effect. *)
Theorem main_ends :
  forall os : OS,
    match main os with
    | (t, Ret _) =>
        endsInWait t = true
        /\ (2 <= length (launches t))%nat
        /\ (4 <= length (os_Args os))%nat
    | (t, Exit c) =>
        c = 1
        /\ endsInLog t = true
        /\ launches t = []
        /\ existsb isWait t = false
        /\ os_Args os <> []
    | (t, Panic _) => t = [] /\ os_Args os = []
    end.
Proof.
  intros os. exact (main_cases os).
Qed.

(** ** The progress counter over a whole download *)

Lemma wrap64_small (z : Z) : - 2 ^ 63 <= z < 2 ^ 63 -> wrap64 z = z.
Proof.
  intros Hz. unfold wrap64. rewrite Z.mod_small by lia. lia.
Qed.

Lemma totalLength_cons (p : list Byte.byte) (ps : list (list Byte.byte)) :
  totalLength (p :: ps) = Z.of_nat (length p) + totalLength ps.
Proof.
  unfold totalLength. cbn [concat]. rewrite length_app. lia.
Qed.

Lemma progressLines_cons (wc : WriteCounter) (p : list Byte.byte)
    (ps : list (list Byte.byte)) :
  progressLines wc (p :: ps)
  = (if prints wc p then 1 else 0)
    + progressLines (snd (fst (WriteCounter_Write wc p))) ps.
Proof.
  unfold progressLines, prints. cbn [writeAll].
  destruct (WriteCounter_Write wc p) as [[printed wc'] r] eqn:HW.
  cbn [fst snd concat]. rewrite length_app.
  destruct (Write_printed wc p) as [H | (name & rd & tl & H)];
    rewrite HW in H; cbn [fst] in H; subst printed; cbn [length]; lia.
Qed.

(** While the count stays in the range of int64: the count grows by
    the bytes written, the last report never overtakes it, and every
    line printed accounts for at least one percent of the total. *)
Lemma afterWrites_invariant (ps : list (list Byte.byte)) :
  forall wc,
    0 <= Z.quot (total wc) 100 ->
    0 <= lastReported wc <= read wc ->
    read wc + totalLength ps < 2 ^ 63 ->
    let wc' := afterWrites wc ps in
    read wc' = read wc + totalLength ps
    /\ lastReported wc <= lastReported wc' <= read wc'
    /\ progressLines wc ps * Z.quot (total wc) 100
       <= lastReported wc' - lastReported wc
    /\ total wc' = total wc.
Proof.
  induction ps as [|p ps IH]; intros wc Hone Hlast Hsum; cbv zeta.
  - cbn [afterWrites]. unfold totalLength, progressLines. cbn. lia.
  - rewrite totalLength_cons in *. rewrite progressLines_cons.
    cbn [afterWrites]. unfold prints.
    assert (Hps : 0 <= totalLength ps) by (unfold totalLength; lia).
    unfold WriteCounter_Write.
    rewrite (wrap64_small (read wc + Z.of_nat (length p))) by lia.
    rewrite wrap64_small by lia.
    destruct (read wc + Z.of_nat (length p) - lastReported wc
              >=? Z.quot (total wc) 100) eqn:Hge; cbn [fst snd];
      rewrite Z.geb_leb in Hge.
    + apply Z.leb_le in Hge.
      match goal with
      | |- context [afterWrites ?w ps] =>
          specialize (IH w); cbn [total read lastReported] in IH;
          destruct IH as (Hr & Hl & Hp & Ht); [exact Hone | lia | lia |]
      end.
      cbv zeta in *. rewrite Hr, Ht. repeat split; try lia.
    + apply Z.leb_gt in Hge.
      match goal with
      | |- context [afterWrites ?w ps] =>
          specialize (IH w); cbn [total read lastReported] in IH;
          destruct IH as (Hr & Hl & Hp & Ht); [exact Hone | lia | lia |]
      end.
      cbv zeta in *. rewrite Hr, Ht. repeat split; try lia.
Qed.

(** X6. On the counter that [downloadFile] creates, with a total
    that is not below -99 and less than 2^63 bytes written in all: the
    count is the number of bytes written, the last reported count is
    between 0 and the count, and the number of progress lines times
    [total / 100] is at most the last reported count.  So when the
    total is at least 100 and no more bytes arrive than it declares,
    fewer than 200 lines are printed, however the bytes are cut into
    slices. *)
Theorem WriteCounter_throttles :
  forall (fp : string) (totalBytes : Z) (ps : list (list Byte.byte)),
    -100 < totalBytes ->
    totalLength ps < 2 ^ 63 ->
    let wc := afterWrites (freshCounter fp totalBytes) ps in
    read wc = totalLength ps
    /\ 0 <= lastReported wc <= read wc
    /\ progressLines (freshCounter fp totalBytes) ps * Z.quot totalBytes 100
       <= lastReported wc
    /\ (100 <= totalBytes -> totalLength ps <= totalBytes ->
        progressLines (freshCounter fp totalBytes) ps < 200).
Proof.
  intros fp totalBytes ps Htotal Hsum. cbv zeta.
  assert (Hone : 0 <= Z.quot totalBytes 100).
  { destruct (Z.le_gt_cases 0 totalBytes) as [Hpos | Hneg].
    - apply Z.quot_pos; lia.
    - pose proof (Z.quot_opp_l (- totalBytes) 100 ltac:(lia)) as Hq.
      rewrite Z.opp_involutive, (Z.quot_small (- totalBytes) 100) in Hq by lia.
      lia. }
  destruct (afterWrites_invariant ps (freshCounter fp totalBytes))
    as (Hr & Hl & Hp & _); cbn [freshCounter total read lastReported];
    try lia.
  cbn [freshCounter total read lastReported] in *.
  repeat split; try lia.
  intros Hbig Hfit.
  assert (Hq : totalBytes < 100 * (Z.quot totalBytes 100 + 1)).
  { pose proof (Z.quot_rem' totalBytes 100).
    pose proof (Z.rem_bound_pos totalBytes 100 ltac:(lia) ltac:(lia)). lia. }
  assert (H1 : 1 <= Z.quot totalBytes 100).
  { apply Z.quot_le_lower_bound; lia. }
  nia.
Qed.

Lemma WriteCounter_throttles_witness :
  read (afterWrites (freshCounter "/workspace/weights/config.json" 300)
          [[Byte.x7b]; [Byte.x7d; Byte.x0a]])
  = totalLength [[Byte.x7b]; [Byte.x7d; Byte.x0a]]
  /\ progressLines (freshCounter "/workspace/weights/config.json" 300)
       [[Byte.x7b]; [Byte.x7d; Byte.x0a]] < 200.
Proof.
  destruct (WriteCounter_throttles "/workspace/weights/config.json" 300
              [[Byte.x7b]; [Byte.x7d; Byte.x0a]])
    as (Hread & _ & _ & Hlines).
  - lia.
  - reflexivity.
  - split; [exact Hread|]. apply Hlines; [lia | cbn; lia].
Defined.

(** ** How a download ends *)

Section DownloadEnds.

Variable os : OS.

Lemma copyEvents_existsb (fp : string) (f : Event -> bool) (t : list Event) :
  (forall e, isCopyEvent fp e = true -> f e = false) ->
  forallb (isCopyEvent fp) t = true ->
  existsb f t = false.
Proof.
  intros Hf. induction t as [|e t IH]; [reflexivity|].
  cbn [forallb existsb]. intros H.
  apply andb_prop in H. destruct H as [He Ht].
  now rewrite (Hf e He), (IH Ht).
Qed.

Lemma copyEvent_not_deferred (fp : string) (e : Event) :
  isCopyEvent fp e = true -> isDeferred e = false.
Proof. destruct e; cbn; congruence. Qed.

Lemma copyEvent_not_log (fp : string) (e : Event) :
  isCopyEvent fp e = true -> isLogLine e = false.
Proof. destruct e; cbn; congruence. Qed.

Lemma copyEvent_not_do (fp : string) (e : Event) :
  isCopyEvent fp e = true -> isDo e = false.
Proof. destruct e; cbn; congruence. Qed.

Lemma endsInLog_snoc (t : list Event) (msg : string) :
  endsInLog (t ++ [EvLog msg]) = true.
Proof. unfold endsInLog. now rewrite rev_app_distr. Qed.

(** X7. [downloadFile] begins by creating the local file, whatever
    comes after.  It sends its request exactly when the file could be
    created and the request could be built.  It ends in one of two
    ways: it returns, and then the trace ends with the three deferred
    calls, [resp.Body.Close()], [out.Close()] and [wg.Done()] in that
    order, with no line of the log before them; or it exits with code
    1 after a line of the log, and then none of the deferred calls has
    run: the file is not closed and [wg.Done()] is not called. *)
Theorem downloadFile_ends :
  forall folderPath url token : string,
    let fp := Filepath.Join [folderPath; getFilenameFromURL url] in
    let m := downloadFile os folderPath url token in
    (exists t, trace m = EvCreate fp :: t)
    /\ existsb isDo (trace m)
       = match os_Create os fp, http_NewRequest os "GET" url with
         | None, None => true
         | _, _ => false
         end
    /\ match result m with
       | Ret _ =>
           exists t, trace m = (t ++ [EvBodyClose; EvFileClose fp; EvWgDone])%list
                     /\ existsb isDeferred t = false
                     /\ existsb isLogLine t = false
       | Exit c =>
           c = 1
           /\ endsInLog (trace m) = true
           /\ existsb isDeferred (trace m) = false
       | Panic _ => False
       end.
Proof.
  intros folderPath url token fp m. subst m.
  pose proof (downloadFile_cases os folderPath url token) as Hc.
  cbv zeta in Hc. fold fp in Hc.
  destruct (os_Create os fp) as [err|].
  { rewrite Hc. cbn. eauto 6. }
  destruct (http_NewRequest os "GET" url) as [err|].
  { rewrite Hc. cbn. eauto 6. }
  destruct (client_Do os (requestFor url token)) as [resp|err].
  2: { rewrite Hc. cbn. eauto 6. }
  pose proof (io_Copy_events os fp (Body resp) (BodyErr resp)
                (freshCounter fp (ContentLength resp))) as Hev.
  pose proof (copyEvents_existsb fp isDeferred _ (copyEvent_not_deferred fp) Hev)
    as Hdef.
  pose proof (copyEvents_existsb fp isLogLine _ (copyEvent_not_log fp) Hev)
    as Hlog.
  destruct (result (io_Copy os fp (freshCounter fp (ContentLength resp))
                      (Body resp) (BodyErr resp))) as [[err|] | |];
    try contradiction; rewrite Hc; cbn [trace result fst snd].
  - split; [eauto|]. split; [reflexivity|].
    split; [reflexivity|]. split.
    + apply (endsInLog_snoc (EvCreate fp :: EvDo (requestFor url token) :: _)).
    + cbn [existsb isDeferred orb]. rewrite existsb_app, Hdef. reflexivity.
  - split; [eauto|]. split; [reflexivity|].
    eexists (EvCreate fp :: EvDo (requestFor url token) :: _)%list.
    split; [reflexivity|].
    cbn [existsb isDeferred isLogLine orb]. now rewrite Hdef, Hlog.
Qed.

(** What [io.Copy] has handed to the file is a prefix of the body. *)
Lemma io_Copy_prefix (fp : string) (chunks : list (list Byte.byte))
    (bodyErr : option string) :
  forall wc, exists rest,
    concat chunks
    = (written fp (trace (io_Copy os fp wc chunks bodyErr)) ++ rest)%list.
Proof.
  induction chunks as [|p chunks IH]; intros wc.
  - exists []. reflexivity.
  - destruct p as [|b p]; [exact (IH wc)|].
    rewrite io_Copy_cons. cbv zeta.
    assert (Hprinted : written fp (fst (fst (WriteCounter_Write wc (b :: p)))) = []).
    { destruct (Write_printed wc (b :: p)) as [-> | (name & r & t & ->)];
        reflexivity. }
    destruct (file_Write os fp (b :: p)) as [err|]; cbn [trace fst].
    + exists (concat chunks).
      rewrite written_app, Hprinted. cbn [written app concat].
      rewrite String.eqb_refl, app_nil_r. reflexivity.
    + destruct (IH (snd (fst (WriteCounter_Write wc (b :: p))))) as [rest Hrest].
      exists rest.
      rewrite written_app, Hprinted. cbn [written app concat].
      rewrite String.eqb_refl, Hrest, app_assoc. reflexivity.
Qed.

(** X8. Whatever happens during a download, the bytes handed to the
    local file are, in order, a prefix of the body of the response;
    when there is no response (the request failed) nothing is written
    and the file that was created stays empty. *)
Theorem downloadFile_writes_prefix :
  forall folderPath url token : string,
    let fp := Filepath.Join [folderPath; getFilenameFromURL url] in
    match client_Do os (requestFor url token) with
    | inl resp =>
        exists rest,
          concat (Body resp)
          = (written fp (trace (downloadFile os folderPath url token)) ++ rest)%list
    | inr _ => written fp (trace (downloadFile os folderPath url token)) = []
    end.
Proof.
  intros folderPath url token fp.
  pose proof (downloadFile_cases os folderPath url token) as Hc.
  cbv zeta in Hc. fold fp in Hc.
  destruct (os_Create os fp) as [err|].
  { rewrite Hc. destruct (client_Do os (requestFor url token)); cbn; eauto. }
  destruct (http_NewRequest os "GET" url) as [err|].
  { rewrite Hc. destruct (client_Do os (requestFor url token)); cbn; eauto. }
  destruct (client_Do os (requestFor url token)) as [resp|err];
    [|rewrite Hc; reflexivity].
  destruct (io_Copy_prefix fp (Body resp) (BodyErr resp)
              (freshCounter fp (ContentLength resp))) as [rest Hrest].
  exists rest.
  destruct (result (io_Copy os fp (freshCounter fp (ContentLength resp))
                      (Body resp) (BodyErr resp))) as [[err|] | |];
    try contradiction; rewrite Hc; cbn [trace fst written];
    rewrite written_app; cbn [written]; now rewrite app_nil_r.
Qed.

End DownloadEnds.

(** ** No run gets stuck *)

Section Progress.

Import Sched.

Variable os : OS.

Lemma owed_pending (ts : list Task) :
  owed ts <> 0 -> exists i t, nth_error ts i = Some t /\ pending t = true.
Proof.
  unfold owed. induction ts as [|x ts IH]; [cbn; lia|].
  cbn [filter]. destruct (pending x) eqn:Hp.
  - intros _. exists 0%nat, x. split; [reflexivity | exact Hp].
  - intros H. destruct (IH H) as (i & t & Hnth & Ht).
    exists (S i), t. split; assumption.
Qed.

Lemma pending_moves (s : State) (i : nat) (t : Task) :
  nth_error (tasks s) i = Some t -> pending t = true ->
  exists s', stepTask s i = Some s'.
Proof.
  intros Hnth Hp. unfold stepTask. rewrite Hnth.
  unfold pending in Hp.
  destruct (todo t) as [|e rest]; [|eauto].
  destruct (ending t); [discriminate | eauto | eauto].
Qed.

(** X10. No deadlock: in every state that a run can reach and in
    which the process has not exited, some goroutine can move.  When
    the main goroutine is blocked in [wg.Wait()], a task that has not
    called [wg.Done()] can. *)
Theorem no_deadlock :
  forall s : State,
    reachable os s ->
    exited s = None ->
    exists c s', step os s c = Some s'.
Proof.
  intros s Hreach Hexit.
  destruct (Inv_reachable os s Hreach) as [_ _ Hw _ _].
  unfold step. rewrite Hexit.
  destruct (main_todo s) as [|e rest] eqn:Htodo.
  - exists RunMain. unfold stepMain. rewrite Htodo. eauto.
  - destruct (isWait e && negb (wg s =? 0)) eqn:Hblocked.
    + apply andb_prop in Hblocked. destruct Hblocked as [_ Hwg].
      apply negb_true_iff, Z.eqb_neq in Hwg. rewrite Hw in Hwg.
      destruct (owed_pending _ Hwg) as (i & t & Hnth & Hp).
      destruct (pending_moves s i t Hnth Hp) as [s' Hs'].
      exists (RunTask i), s'. exact Hs'.
    + exists RunMain. unfold stepMain. rewrite Htodo.
      destruct e; cbn [isWait andb negb] in Hblocked; eauto.
      apply negb_false_iff in Hblocked. rewrite Hblocked. eauto.
Qed.

End Progress.

Lemma no_deadlock_witness :
  exists c s', Sched.step os_public (Sched.init os_public) c = Some s'.
Proof.
  apply (no_deadlock os_public (Sched.init os_public)).
  - exists []. reflexivity.
  - reflexivity.
Defined.

(** ** The counter of the wait group and the exit code *)

Section Counter.

Import Sched.

Variable os : OS.

Lemma owed_bounds (ts : list Task) : 0 <= owed ts <= Z.of_nat (length ts).
Proof.
  unfold owed. pose proof (filter_length_le pending ts). lia.
Qed.

(** X11. In every state that a run can reach, the counter of the
    wait group is the number of started tasks that have not called
    [wg.Done()]: it is never negative and never more than the number
    of tasks started. *)
Theorem wait_group_counter :
  forall s : State,
    reachable os s ->
    wg s = owed (tasks s)
    /\ 0 <= wg s <= Z.of_nat (length (tasks s)).
Proof.
  intros s Hreach.
  destruct (Inv_reachable os s Hreach) as [_ _ Hw _ _].
  split; [exact Hw|]. rewrite Hw. apply owed_bounds.
Qed.

Lemma exitCodeOK_running (s : State) : exited s = None -> exitCodeOK os s.
Proof. intros H c Hc. rewrite H in Hc. discriminate Hc. Qed.

Lemma exitCodeOK_step (s s' : State) (c : Choice) :
  Inv os s -> step os s c = Some s' -> exitCodeOK os s'.
Proof.
  intros [_ Ht _ _ _]. unfold step.
  destruct (exited s) eqn:Hexit; [discriminate|].
  destruct c as [|i].
  - unfold stepMain. destruct (main_todo s) as [|e rest].
    + intros [= <-] c Hc. cbn [exited] in Hc. injection Hc as <-.
      pose proof (main_cases os) as Hm. unfold result.
      destruct (main os) as [t [[] | c | msg]]; cbn [snd exitCode].
      * left. split; reflexivity.
      * right. left. tauto.
      * right. right. tauto.
    + destruct e; try (intros [= <-]; now apply exitCodeOK_running).
      destruct (wg s =? 0); [|discriminate].
      intros [= <-]. now apply exitCodeOK_running.
  - unfold stepTask.
    destruct (nth_error (tasks s) i) as [t|] eqn:Hnth; [|discriminate].
    assert (Hti : taskInv t).
    { rewrite Forall_forall in Ht. apply Ht. eapply nth_error_In. exact Hnth. }
    destruct (todo t) as [|e rest].
    + unfold taskInv in Hti.
      destruct (ending t) as [[] | c | msg]; [discriminate | | contradiction].
      destruct Hti as [-> _]. intros [= <-] c Hc. cbn in Hc.
      injection Hc as <-. right. left. reflexivity.
    + intros [= <-]. now apply exitCodeOK_running.
Qed.

Lemma exitCodeOK_exec (cs : list Choice) :
  forall s s', Inv os s -> exitCodeOK os s -> exec os s cs = Some s' ->
               exitCodeOK os s'.
Proof.
  induction cs as [|c cs IH]; intros s s' Hinv Hok Hexec; cbn [exec] in Hexec.
  - now injection Hexec as <-.
  - destruct (step os s c) as [s1|] eqn:Hstep; [|discriminate].
    apply (IH s1 s'); [ | exact (exitCodeOK_step s s1 c Hinv Hstep) | exact Hexec].
    exact (Inv_exec os [c] s s1 Hinv ltac:(cbn [exec]; now rewrite Hstep)).
Qed.

(** X12. The process exits with code 0, 1 or 2 and no other: with 0
    only when [main] returns, with 2 only when [os.Args] is empty (the
    panic of an index out of range), and with 1, after [log.Fatal], in
    every other case, whether the failure is in [main] or in a task. *)
Theorem process_exit_code :
  forall (s : State) (c : Z),
    reachable os s ->
    exited s = Some c ->
    (c = 0 /\ result (main os) = Ret tt)
    \/ c = 1
    \/ (c = 2 /\ os_Args os = []).
Proof.
  intros s c [cs Hcs] Hexit.
  apply (exitCodeOK_exec cs (init os) s (Inv_init os)); [ | exact Hcs | exact Hexit].
  now apply exitCodeOK_running.
Qed.

End Counter.

Lemma wait_group_counter_witness :
  Sched.wg (stateAfter os_refused refusedSchedule)
  = Sched.owed (Sched.tasks (stateAfter os_refused refusedSchedule))
  /\ 0 <= Sched.wg (stateAfter os_refused refusedSchedule)
     <= Z.of_nat (length (Sched.tasks (stateAfter os_refused refusedSchedule))).
Proof.
  apply (wait_group_counter os_refused (stateAfter os_refused refusedSchedule)).
  exists refusedSchedule. vm_compute. reflexivity.
Defined.

Lemma process_exit_code_witness :
  Sched.exited (stateAfter os_refused refusedSchedule) = Some 1
  /\ ((1 = 0 /\ result (main os_refused) = Ret tt)
      \/ 1 = 1
      \/ (1 = 2 /\ os_Args os_refused = [])).
Proof.
  split; [vm_compute; reflexivity|].
  apply (process_exit_code os_refused (stateAfter os_refused refusedSchedule) 1).
  - exists refusedSchedule. vm_compute. reflexivity.
  - vm_compute. reflexivity.
Defined.

(** ** The file name of a URL, and back from the local path *)

Section BaseNames.

Import Filepath.

Lemma afterLastSeparator_Some (s e : string) :
  afterLastSeparator s = Some e -> noSeparator e = true.
Proof.
  revert e. induction s as [|c s IH]; intros e; [discriminate|].
  cbn [afterLastSeparator].
  destruct (afterLastSeparator s) as [e'|] eqn:E.
  - intros [= <-]. now apply IH.
  - destruct (IsPathSeparator c); [|discriminate].
    intros [= <-]. clear IH.
    induction s as [|d s IHs]; [reflexivity|].
    cbn [afterLastSeparator] in E. cbn [noSeparator].
    destruct (afterLastSeparator s); [discriminate|].
    destruct (IsPathSeparator d); [discriminate|].
    now rewrite IHs.
Qed.

Lemma afterLastSeparator_None (s : string) :
  afterLastSeparator s = None -> noSeparator s = true.
Proof.
  induction s as [|c s IH]; [reflexivity|].
  cbn [afterLastSeparator noSeparator].
  destruct (afterLastSeparator s); [discriminate|].
  destruct (IsPathSeparator c); [discriminate|].
  intros _. now rewrite IH.
Qed.

Lemma Base_noSeparator (f : string) :
  f <> "" -> noSeparator f = true -> Base f = f.
Proof.
  intros Hne Hsep. unfold Base.
  rewrite (eqb_empty_false f Hne), (stripTrailing_noSeparator f Hsep).
  rewrite (afterLastSeparator_noSeparator f Hsep).
  now rewrite (eqb_empty_false f Hne).
Qed.

(** X13. The file name that [getFilenameFromURL] gives is never
    empty; it is "." for the empty URL; it is "/" or has no separator
    in it; and taking the file name of a file name changes nothing. *)
Theorem getFilenameFromURL_shape :
  forall url : string,
    getFilenameFromURL url <> ""
    /\ getFilenameFromURL "" = "."
    /\ (getFilenameFromURL url = "/"
        \/ noSeparator (getFilenameFromURL url) = true)
    /\ getFilenameFromURL (getFilenameFromURL url) = getFilenameFromURL url.
Proof.
  intros url.
  assert (Hshape : getFilenameFromURL url <> ""
                   /\ (getFilenameFromURL url = "/"
                       \/ noSeparator (getFilenameFromURL url) = true)).
  { unfold getFilenameFromURL, Base.
    destruct (url =?s ""); [split; [discriminate | now right]|].
    destruct (afterLastSeparator (stripTrailing url)) as [e|] eqn:E.
    - destruct (e =?s "") eqn:Ee; [split; [discriminate | now left]|].
      apply String.eqb_neq in Ee. split; [exact Ee | right].
      exact (afterLastSeparator_Some _ _ E).
    - destruct (stripTrailing url =?s "") eqn:Ee;
        [split; [discriminate | now left]|].
      apply String.eqb_neq in Ee. split; [exact Ee | right].
      exact (afterLastSeparator_None _ E). }
  destruct Hshape as [Hne Hsep].
  split; [exact Hne|]. split; [reflexivity|]. split; [exact Hsep|].
  destruct Hsep as [Hroot | Hsep].
  - rewrite Hroot. reflexivity.
  - unfold getFilenameFromURL in *. now apply Base_noSeparator.
Qed.

(** The path that [Join] makes of a folder and a plain name is the
    name alone, or a path that ends with a separator and the name. *)
Lemma Join_plainName_dir (folderPath f : string) :
  plainName f = true ->
  Join [folderPath; f] = f \/ exists p, Join [folderPath; f] = p ++ "/" ++ f.
Proof.
  intros Hf.
  destruct (plainName_facts f Hf) as (Hne & _ & _ & Hsep).
  destruct (folderPath =?s "") eqn:Efolder.
  - left.
    cbn [Join]. rewrite Efolder, (eqb_empty_false f Hne).
    cbn [String.concat]. unfold Clean.
    rewrite (eqb_empty_false f Hne), (split_noSeparator f Hsep).
    cbn [fold_left]. rewrite (cleanStep_plain _ _ f Hf). cbn [fst snd].
    assert (Hroot : isRooted f = false).
    { destruct f as [|c f]; [reflexivity|].
      cbn in Hsep. apply andb_prop in Hsep. destruct Hsep as [Hc _].
      now apply negb_true_iff in Hc. }
    rewrite Hroot, (render_plain _ _ _ f Hne). reflexivity.
  - apply String.eqb_neq in Efolder.
    set (rooted := isRooted folderPath).
    destruct (fold_left (cleanStep rooted) (split folderPath) (0%nat, []))
      as [dotdot elems] eqn:Efold.
    assert (HJ : Join [folderPath; f]
                 = before rooted (repeat ".." dotdot ++ rev elems) ++ f).
    { cbn [Join]. rewrite (eqb_empty_false _ Efolder).
      cbn [String.concat]. unfold Clean.
      change ("/" ++ f) with (String "/" f).
      assert (Hs : String "/" f <> "") by discriminate.
      rewrite (eqb_empty_false _ (append_not_empty folderPath _ Hs)).
      assert (Hroot : isRooted (folderPath ++ String "/" f) = rooted).
      { unfold rooted. destruct folderPath; [contradiction | reflexivity]. }
      rewrite Hroot, split_append, (split_noSeparator f Hsep), fold_left_app.
      rewrite Efold. cbn [fold_left].
      rewrite (cleanStep_plain _ _ f Hf). cbn [fst snd].
      exact (render_plain rooted dotdot elems f Hne). }
    rewrite HJ. unfold before.
    destruct (repeat ".." dotdot ++ rev elems)%list as [|x l].
    + destruct rooted; [right; exists ""; reflexivity | left; reflexivity].
    + right. exists ((if rooted then "/" else "") ++ String.concat "/" (x :: l)).
      now rewrite <- !append_assoc.
Qed.

(** X14. From the local path back to the name: for a plain file name
    (not empty, no separator, neither "." nor "..") and any folder,
    the base name of [filepath.Join(folder, name)] is the name. *)
Theorem Base_Join_plainName :
  forall folderPath url : string,
    plainName (getFilenameFromURL url) = true ->
    Base (Join [folderPath; getFilenameFromURL url]) = getFilenameFromURL url.
Proof.
  intros folderPath url Hplain.
  destruct (plainName_facts _ Hplain) as (Hne & _ & _ & Hsep).
  destruct (Join_plainName_dir folderPath _ Hplain) as [-> | [p ->]].
  - now apply Base_noSeparator.
  - now apply Base_file.
Qed.

End BaseNames.

Lemma Base_Join_plainName_witness :
  Filepath.Base
    (Filepath.Join ["/workspace/weights";
                    getFilenameFromURL "https://huggingface.co/tiiuae/falcon-7b/raw/main/config.json"])
  = getFilenameFromURL "https://huggingface.co/tiiuae/falcon-7b/raw/main/config.json".
Proof.
  apply (Base_Join_plainName "/workspace/weights"
           "https://huggingface.co/tiiuae/falcon-7b/raw/main/config.json").
  reflexivity.
Defined.

(** ** The progress lines of a download *)

Section ProgressLines.

Variable os : OS.

Lemma Write_keeps (wc : WriteCounter) (p : list Byte.byte) :
  filename (snd (fst (WriteCounter_Write wc p))) = filename wc
  /\ total (snd (fst (WriteCounter_Write wc p))) = total wc.
Proof.
  unfold WriteCounter_Write. destruct (_ >=? _); split; reflexivity.
Qed.

Lemma Write_label (wc : WriteCounter) (p : list Byte.byte) (name : string) (r t : Z) :
  In (EvProgress name r t) (fst (fst (WriteCounter_Write wc p))) ->
  name = Filepath.Base (filename wc) /\ t = total wc.
Proof.
  unfold WriteCounter_Write. destruct (_ >=? _); cbn [fst In]; [|tauto].
  intros [[= <- _ <-] | []]. split; reflexivity.
Qed.

Lemma io_Copy_label (fp : string) (chunks : list (list Byte.byte))
    (bodyErr : option string) (name : string) (r t : Z) :
  forall wc,
    In (EvProgress name r t) (trace (io_Copy os fp wc chunks bodyErr)) ->
    name = Filepath.Base (filename wc) /\ t = total wc.
Proof.
  induction chunks as [|p chunks IH]; intros wc Hin; [contradiction|].
  destruct p as [|b p]; [exact (IH wc Hin)|].
  rewrite io_Copy_cons in Hin. cbv zeta in Hin.
  destruct (Write_keeps wc (b :: p)) as [Hname Htotal].
  destruct (file_Write os fp (b :: p)) as [err|]; cbn [trace fst] in Hin;
    apply in_app_or in Hin; destruct Hin as [Hin | Hin];
    try exact (Write_label wc (b :: p) name r t Hin).
  - destruct Hin as [Hin | []]. discriminate Hin.
  - destruct Hin as [Hin | Hin]; [discriminate Hin|].
    destruct (IH _ Hin) as [-> ->]. now rewrite Hname, Htotal.
Qed.

(** X15. A progress line of a download is printed only after the
    response has arrived; its total is the content length that the
    response declares, and its label is the base name of the local
    path, which for a URL with a plain file name is that file name. *)
Theorem progress_lines_label :
  forall (folderPath url token name : string) (r t : Z),
    In (EvProgress name r t) (trace (downloadFile os folderPath url token)) ->
    exists resp,
      client_Do os (requestFor url token) = inl resp
      /\ t = ContentLength resp
      /\ name = Filepath.Base (Filepath.Join [folderPath; getFilenameFromURL url])
      /\ (plainName (getFilenameFromURL url) = true ->
          name = getFilenameFromURL url).
Proof.
  intros folderPath url token name r t Hin.
  pose proof (downloadFile_cases os folderPath url token) as Hc.
  cbv zeta in Hc.
  set (fp := Filepath.Join [folderPath; getFilenameFromURL url]) in *.
  destruct (os_Create os fp) as [err|].
  { rewrite Hc in Hin. cbn in Hin. intuition discriminate. }
  destruct (http_NewRequest os "GET" url) as [err|].
  { rewrite Hc in Hin. cbn in Hin. intuition discriminate. }
  destruct (client_Do os (requestFor url token)) as [resp|err].
  2: { rewrite Hc in Hin. cbn in Hin. intuition discriminate. }
  assert (Hcopy : In (EvProgress name r t)
                    (trace (io_Copy os fp (freshCounter fp (ContentLength resp))
                              (Body resp) (BodyErr resp)))).
  { destruct (result (io_Copy os fp (freshCounter fp (ContentLength resp))
                        (Body resp) (BodyErr resp))) as [[err|] | |];
      try contradiction; rewrite Hc in Hin; cbn [trace fst] in Hin;
      destruct Hin as [Hin | [Hin | Hin]]; try discriminate Hin;
      apply in_app_or in Hin; destruct Hin as [Hin | Hin]; try exact Hin;
      cbn in Hin; intuition discriminate. }
  destruct (io_Copy_label fp _ _ name r t _ Hcopy) as [Hname Htotal].
  cbn [freshCounter filename total] in Hname, Htotal.
  exists resp. split; [reflexivity|]. split; [exact Htotal|].
  split; [exact Hname|].
  intros Hplain. rewrite Hname. unfold fp.
  destruct (plainName_facts _ Hplain) as (Hne & _ & _ & Hsep).
  destruct (Join_plainName_dir folderPath _ Hplain) as [-> | [p ->]].
  - now apply Base_noSeparator.
  - now apply Base_file.
Qed.

End ProgressLines.

Lemma progress_lines_label_witness :
  exists resp,
    client_Do os_public
      (requestFor "https://huggingface.co/tiiuae/falcon-7b/raw/main/config.json" "")
    = inl resp
    /\ 3 = ContentLength resp
    /\ "config.json"
       = Filepath.Base
           (Filepath.Join ["/workspace/weights";
                           getFilenameFromURL
                             "https://huggingface.co/tiiuae/falcon-7b/raw/main/config.json"])
    /\ (plainName
          (getFilenameFromURL
             "https://huggingface.co/tiiuae/falcon-7b/raw/main/config.json") = true ->
        "config.json"
        = getFilenameFromURL
            "https://huggingface.co/tiiuae/falcon-7b/raw/main/config.json").
Proof.
  apply (progress_lines_label os_public "/workspace/weights"
           "https://huggingface.co/tiiuae/falcon-7b/raw/main/config.json" ""
           "config.json" 1 3).
  cbn. do 2 right. left. reflexivity.
Defined.

(** ** A public run *)

Lemma getURLsForModel_falcon (baseURL modelVersion : string) :
  isFalcon modelVersion = true ->
  getURLsForModel "public" baseURL modelVersion
  = ([], Ret (onHub modelVersion (falconFiles modelVersion))).
Proof.
  unfold isFalcon. cbn [existsb]. intros H.
  repeat (apply orb_prop in H; destruct H as [H | H]);
    try discriminate H; apply String.eqb_eq in H; subst modelVersion;
    reflexivity.
Qed.

(** X16. A public run with a falcon model version and the directory
    in place: [main] returns after starting one task per file of the
    version, in the order of the list, each with the URL
    https://huggingface.co/modelVersion/..., the output directory as
    given and the empty token.  The environment is not read, and the
    arguments after the output directory, however many, are ignored. *)
Theorem main_public_run :
  forall (os : OS) (prog model dir : string) (more : list string),
    os_Args os = prog :: "public" :: model :: dir :: more ->
    isFalcon model = true ->
    dirReady os dir ->
    result (main os) = Ret tt
    /\ launches (trace (main os))
       = map (fun u => (dir, u, "")) (onHub model (falconFiles model))
    /\ existsb isGetenv (trace (main os)) = false.
Proof.
  intros os prog model dir more Hos Hfalcon Hready.
  destruct (dirReady_ensured os dir Hready) as (t & Hens & Ht).
  unfold main, index. rewrite Hos.
  cbn [length Nat.ltb Nat.leb nth_error]. rewrite !bind_ret_l, Hens.
  change ("public" =?s PrivateLink) with false. cbv iota.
  cbn [bind emit ret app].
  rewrite (getURLsForModel_falcon "" model Hfalcon).
  cbn [bind emit ret app]. rewrite forEach_emit.
  cbn [bind emit ret result trace fst snd app].
  split; [reflexivity|].
  destruct Ht as [-> | ->]; cbn [app launches existsb isGetenv orb];
    (split; [apply launches_go | now apply existsb_go]).
Qed.

Lemma main_public_run_witness :
  result (main os_public_extras) = Ret tt
  /\ launches (trace (main os_public_extras))
     = map (fun u => ("/workspace/weights", u, ""))
         (onHub "tiiuae/falcon-40b-instruct" (falconFiles "tiiuae/falcon-40b-instruct"))
  /\ existsb isGetenv (trace (main os_public_extras)) = false.
Proof.
  apply (main_public_run os_public_extras "download_script"
           "tiiuae/falcon-40b-instruct" "/workspace/weights" ["10.0.0.1"]).
  - reflexivity.
  - reflexivity.
  - left. discriminate.
Defined.

(** ** When a download returns *)

Section DownloadReturns.

Variable os : OS.

Lemma io_Copy_clean (fp : string) (chunks : list (list Byte.byte))
    (bodyErr : option string) :
  forall wc,
    result (io_Copy os fp wc chunks bodyErr) = Ret None
    <-> bodyErr = None /\ writable os fp chunks.
Proof.
  unfold writable.
  induction chunks as [|p chunks IH]; intros wc.
  - cbn. split; [intros [= ->]; split; [reflexivity | constructor]|].
    intros [-> _]. reflexivity.
  - destruct p as [|b p].
    + cbn [io_Copy]. rewrite IH. split; intros [Hb Hw]; (split; [exact Hb|]).
      * constructor; [now left | exact Hw].
      * now inversion Hw.
    + rewrite io_Copy_cons. cbv zeta.
      destruct (file_Write os fp (b :: p)) as [err|] eqn:Hwrite; cbn [result snd].
      * split; [discriminate|]. intros [_ Hw].
        inversion Hw as [|? ? [Hnil | Hfile] _]; subst; congruence.
      * rewrite IH. split; intros [Hb Hw]; (split; [exact Hb|]).
        -- constructor; [now right | exact Hw].
        -- now inversion Hw.
Qed.

(** X17. [downloadFile] returns exactly when the local file could be
    created, the request could be built, [client.Do] gave a response,
    every chunk of its body that is not empty could be written to the
    file, and the body ended without an error.  In every other case it
    exits the process. *)
Theorem downloadFile_returns_iff :
  forall folderPath url token : string,
    let fp := Filepath.Join [folderPath; getFilenameFromURL url] in
    result (downloadFile os folderPath url token) = Ret tt
    <-> os_Create os fp = None
        /\ http_NewRequest os "GET" url = None
        /\ exists resp,
             client_Do os (requestFor url token) = inl resp
             /\ BodyErr resp = None
             /\ writable os fp (Body resp).
Proof.
  intros folderPath url token fp.
  pose proof (downloadFile_cases os folderPath url token) as Hc.
  cbv zeta in Hc. fold fp in Hc.
  destruct (os_Create os fp) as [err|].
  { rewrite Hc. split; [discriminate | intros [H _]; discriminate H]. }
  destruct (http_NewRequest os "GET" url) as [err|].
  { rewrite Hc. split; [discriminate | intros (_ & H & _); discriminate H]. }
  destruct (client_Do os (requestFor url token)) as [resp|err].
  2: { rewrite Hc. split; [discriminate|].
       intros (_ & _ & resp & H & _). discriminate H. }
  pose proof (io_Copy_clean fp (Body resp) (BodyErr resp)
                (freshCounter fp (ContentLength resp))) as Hclean.
  destruct (result (io_Copy os fp (freshCounter fp (ContentLength resp))
                      (Body resp) (BodyErr resp))) as [[err|] | |];
    try contradiction; rewrite Hc; cbn [result snd].
  - split; [discriminate|].
    intros (_ & _ & resp' & [= <-] & Hb & Hw).
    destruct Hclean as [_ Hclean]. specialize (Hclean (conj Hb Hw)).
    discriminate Hclean.
  - split; [|reflexivity]. intros _.
    destruct Hclean as [Hclean _]. destruct (Hclean eq_refl) as [Hb Hw].
    repeat split. exists resp. repeat split; assumption.
Qed.

End DownloadReturns.

(** ** A run in which every download returns *)

Section AllReturn.

Import Sched.

Variable os : OS.

Lemma tasksRunDownloads_step (s s' : State) (c : Choice) :
  tasksRunDownloads os s -> step os s c = Some s' -> tasksRunDownloads os s'.
Proof.
  unfold tasksRunDownloads, step. intros Hrun.
  destruct (exited s); [discriminate|].
  destruct c as [|i].
  - unfold stepMain. destruct (main_todo s) as [|e rest].
    + now intros [= <-].
    + destruct e; try (now intros [= <-]).
      * intros [= <-]. cbn [tasks]. apply Forall_app. split; [exact Hrun|].
        constructor; [reflexivity | constructor].
      * destruct (wg s =? 0); [now intros [= <-] | discriminate].
  - unfold stepTask.
    destruct (nth_error (tasks s) i) as [t|] eqn:Hnth; [|discriminate].
    assert (Ht : ending t
                 = result (downloadFile os (t_folder t) (t_url t) (t_token t))).
    { rewrite Forall_forall in Hrun. apply Hrun. eapply nth_error_In. exact Hnth. }
    destruct (todo t) as [|e rest].
    + destruct (ending t); [discriminate | now intros [= <-] | now intros [= <-]].
    + intros [= <-]. cbn [tasks]. now apply replace_Forall.
Qed.

Lemma exit_step (s s' : State) (c : Choice) (code : Z) :
  step os s c = Some s' ->
  exited s' = Some code ->
  (main_todo s = [] /\ code = exitCode (result (main os)))
  \/ exists i t, nth_error (tasks s) i = Some t
                 /\ todo t = []
                 /\ ending t <> Ret tt
                 /\ code = exitCode (ending t).
Proof.
  unfold step. destruct (exited s); [discriminate|].
  destruct c as [|i].
  - unfold stepMain. destruct (main_todo s) as [|e rest].
    + intros [= <-] [= <-]. now left.
    + destruct e; try (intros [= <-]; discriminate).
      destruct (wg s =? 0); [intros [= <-]; discriminate | discriminate].
  - unfold stepTask.
    destruct (nth_error (tasks s) i) as [t|] eqn:Hnth; [|discriminate].
    destruct (todo t) as [|e rest] eqn:Htodo; [|intros [= <-]; discriminate].
    destruct (ending t) as [[] | c | msg] eqn:Hend; [discriminate | |];
      intros [= <-] [= <-]; right; exists i, t; rewrite Hend;
      repeat split; try assumption; discriminate.
Qed.

Lemma all_return_exec (cs : list Choice) :
  result (main os) = Ret tt ->
  Forall (fun l => result (downloadFile os (fst (fst l)) (snd (fst l)) (snd l)) = Ret tt)
         (launches (trace (main os))) ->
  forall s s',
    Inv os s -> tasksRunDownloads os s ->
    (forall code, exited s = Some code -> code = 0) ->
    exec os s cs = Some s' ->
    forall code, exited s' = Some code -> code = 0.
Proof.
  intros Hmain Hall.
  induction cs as [|c cs IH]; intros s s' Hinv Hrun Hok Hexec;
    cbn [exec] in Hexec.
  - now injection Hexec as <-.
  - destruct (step os s c) as [s1|] eqn:Hstep; [|discriminate].
    apply (IH s1 s'); try exact Hexec.
    + exact (Inv_exec os [c] s s1 Hinv ltac:(cbn [exec]; now rewrite Hstep)).
    + exact (tasksRunDownloads_step s s1 c Hrun Hstep).
    + intros code Hcode.
      destruct (exit_step s s1 c code Hstep Hcode)
        as [[_ ->] | (i & t & Hnth & _ & Hend & _)].
      * now rewrite Hmain.
      * exfalso. apply Hend.
        pose proof (nth_error_In _ _ Hnth) as Hin.
        unfold tasksRunDownloads in Hrun. rewrite Forall_forall in Hrun.
        rewrite (Hrun t Hin).
        rewrite Forall_forall in Hall.
        apply (Hall (launch t)).
        rewrite <- (inv_launch os s Hinv). apply in_or_app. left.
        now apply in_map.
Qed.

(** X18. When [main] returns and every download that it starts
    returns, the process cannot exit with an error: in every run, an
    exit is the exit with code 0, and by then every task has been
    started and has finished. *)
Theorem all_downloads_return :
  forall (s : State) (code : Z),
    result (main os) = Ret tt ->
    Forall (fun l => result (downloadFile os (fst (fst l)) (snd (fst l)) (snd l)) = Ret tt)
           (launches (trace (main os))) ->
    reachable os s ->
    exited s = Some code ->
    code = 0
    /\ map launch (tasks s) = launches (trace (main os))
    /\ Forall finished (tasks s).
Proof.
  intros s code Hmain Hall [cs Hcs] Hexit.
  assert (Hcode : code = 0).
  { apply (all_return_exec cs Hmain Hall (init os) s); try assumption.
    - apply Inv_init.
    - constructor.
    - discriminate. }
  subst code. split; [reflexivity|].
  destruct (Inv_exec os cs _ _ (Inv_init os) Hcs) as [Hl _ Hw _ He].
  destruct (He Hexit) as [Htodo Hzero].
  rewrite Htodo in Hl. cbn [launches] in Hl. rewrite app_nil_r in Hl.
  split; [exact Hl|].
  apply owed_zero_finished. now rewrite <- Hw.
Qed.

End AllReturn.

Lemma all_downloads_return_witness :
  0 = 0
  /\ map Sched.launch (Sched.tasks (stateAfter os_public completeSchedule))
     = launches (trace (main os_public))
  /\ Forall Sched.finished (Sched.tasks (stateAfter os_public completeSchedule)).
Proof.
  apply (all_downloads_return os_public (stateAfter os_public completeSchedule) 0).
  - reflexivity.
  - vm_compute. repeat constructor.
  - exists completeSchedule. vm_compute. reflexivity.
  - vm_compute. reflexivity.
Defined.

(** ** The directory check and what follows it *)

Lemma noDirEvents_go (dir tok : string) (urls : list string) :
  noDirEvents (map (fun u => EvGo dir u tok) urls ++ [EvWait]).
Proof.
  unfold noDirEvents. induction urls as [|u urls IH]; [reflexivity | exact IH].
Qed.

(** C3, as the code has it.  With at least three arguments after the
    program name, [main] begins with [os.Stat] on the output directory.
    A directory reported missing is created with [os.MkdirAll] (mode
    0755); when the creation fails the run ends there, in
    [os.Exit(1)].  In every other case (the directory found, any other
    answer of [os.Stat], or the directory created) the run goes on with
    the next statement of [main]: the call of the resolver, or for the
    link type "private" the check of the argument count and of the
    token; nothing after the check looks at the directory tree again.
    So the resolver is reached exactly when the directory check did not
    end the run and, for "private", the arguments and the token are
    there. *)
Theorem main_ensures_directory :
  forall (os : OS) (prog link model dir : string) (more : list string),
    os_Args os = prog :: link :: model :: dir :: more ->
    match os_Stat os dir with
    | StatNotExist =>
        match os_MkdirAll os dir 493 with
        | Some err =>
            main os = ([EvStat dir; EvMkdirAll dir 493;
                        EvLog ("Failed to create directory: " ++ err)], Exit 1)
        | None =>
            exists t, trace (main os) = EvStat dir :: EvMkdirAll dir 493 :: t
                      /\ noDirEvents t
                      /\ hd_error t = Some (afterDirCheck prog link model more)
        end
    | _ =>
        exists t, trace (main os) = EvStat dir :: t
                  /\ noDirEvents t
                  /\ hd_error t = Some (afterDirCheck prog link model more)
    end
    /\ (existsb isResolve (trace (main os)) = true
        <-> dirReady os dir
            /\ (link = "private" ->
                length more = 2%nat /\ os_Getenv os "AUTH_TOKEN_ENV_VAR" <> "")).
Proof.
  intros os prog link model dir more Hos.
  unfold afterDirCheck, dirReady. fold PrivateLink.
  split_args os; try discriminate Hos.
  injection Hos as <- <- <- <- <-.
  split_dir os; split_private os.
  all: cbn [bind emit ret log_Fatal app length Nat.eqb].
  all: try match goal with
           | |- context [getURLsForModel ?lt ?base ?mv] =>
               destruct (getURLsForModel_outcomes lt base mv)
                 as [[urls Hres] | [msg Hres]];
               rewrite Hres
           end.
  all: cbn [bind emit ret log_Fatal app]; rewrite ?forEach_emit;
       cbn [bind emit ret app trace fst].
  all: (split;
        [ first [ reflexivity
                | eexists; repeat split; reflexivity
                | eexists; split; [reflexivity|];
                  split; [|reflexivity];
                  unfold noDirEvents; cbn [forallb isDirEvent negb andb];
                  apply noDirEvents_go ]
        | ]).
  all: cbn [existsb isResolve orb].
  all: split;
    [ intros H; try discriminate H;
      (split;
       [ first [left; discriminate | right; reflexivity]
       | intros Hl;
         first [ rewrite Hl, String.eqb_refl in Hprivate; discriminate Hprivate
               | split; [reflexivity | now apply String.eqb_neq] ] ])
    | intros [Hd Hp]; try reflexivity; exfalso;
      first [ destruct Hd as [Hd | Hd]; congruence
            | apply String.eqb_eq in Hprivate;
              destruct (Hp Hprivate) as [Hlen Ht];
              first [ discriminate Hlen
                    | apply Ht; first [reflexivity | now apply String.eqb_eq] ] ] ].
Qed.

Lemma main_ensures_directory_witness :
  (exists t,
      trace (main os_public)
      = EvStat "/workspace/weights" :: EvMkdirAll "/workspace/weights" 493 :: t
      /\ noDirEvents t
      /\ hd_error t
         = Some (afterDirCheck "download_script" "public" "tiiuae/falcon-7b" []))
  /\ (existsb isResolve (trace (main os_public)) = true
      <-> dirReady os_public "/workspace/weights"
          /\ ("public" = "private" ->
              length (@nil string) = 2%nat
              /\ os_Getenv os_public "AUTH_TOKEN_ENV_VAR" <> "")).
Proof.
  exact (main_ensures_directory os_public "download_script" "public"
           "tiiuae/falcon-7b" "/workspace/weights" [] eq_refl).
Defined.

(** ** The arguments of a private run *)

(** C4, as the code has it.  With link type "private", when
    AUTH_TOKEN_ENV_VAR is unset or empty, or when fewer or more than
    the required 5 positional arguments are given ([os.Args] has 6
    entries with the program name), the run ends in [os.Exit(1)] with
    a line of the log as its last event, before the resolver is called
    and before any download task is started.  With the 5 positional
    arguments, the token and the directory in place, the resolver is
    called. *)
Theorem private_run_needs_five_arguments :
  forall os : OS,
    privateRunNeeds 5 os
    /\ (forall dir,
          nth_error (os_Args os) 1 = Some "private" ->
          nth_error (os_Args os) 3 = Some dir ->
          length (tl (os_Args os)) = 5%nat ->
          os_Getenv os "AUTH_TOKEN_ENV_VAR" <> "" ->
          dirReady os dir ->
          existsb isResolve (trace (main os)) = true).
Proof.
  intros os. split.
  - intros Hlink Hbad.
    apply (main_private_preconditions os Hlink).
    destruct Hbad as [H | [H | H]]; [now left | now right; left | right; right].
    destruct (os_Args os) as [|prog rest]; [discriminate Hlink|].
    cbn [tl length] in *. lia.
  - intros dir Hlink Hdir Hlen Htoken Hready.
    destruct (dirReady_ensured os dir Hready) as (t & Hens & Ht).
    unfold os_Getenv in Htoken.
    unfold main, index, os_Getenv.
    destruct (os_Args os) as [|prog [|link [|model [|dir' [|ip [|port [|x more]]]]]]];
      try discriminate.
    cbn [nth_error] in Hlink, Hdir.
    injection Hlink as ->. injection Hdir as ->.
    cbn [length Nat.ltb Nat.leb Nat.eqb negb nth_error].
    rewrite !bind_ret_l, Hens.
    change ("private" =?s PrivateLink) with true. cbv iota.
    destruct (os_Environ os "AUTH_TOKEN_ENV_VAR") as [tok|];
      [|contradiction].
    apply String.eqb_neq in Htoken. rewrite Htoken.
    cbn [bind emit ret app].
    match goal with
    | |- context [getURLsForModel ?lt ?base ?mv] =>
        destruct (getURLsForModel lt base mv) as [tr [urls | c | msg]]
    end; cbn [bind emit ret app]; rewrite ?forEach_emit;
      destruct Ht as [-> | ->];
      cbn [bind emit ret app trace fst existsb isResolve orb]; reflexivity.
Qed.

Lemma private_run_needs_five_arguments_witness :
  (result (main os_private_no_token) = Exit 1
   /\ endsInLog (trace (main os_private_no_token)) = true
   /\ existsb isResolve (trace (main os_private_no_token)) = false
   /\ launches (trace (main os_private_no_token)) = [])
  /\ existsb isResolve (trace (main os_private)) = true.
Proof.
  split.
  - apply (proj1 (private_run_needs_five_arguments os_private_no_token)).
    + reflexivity.
    + left. reflexivity.
  - apply (proj2 (private_run_needs_five_arguments os_private)
             "/workspace/weights").
    + reflexivity.
    + reflexivity.
    + reflexivity.
    + discriminate.
    + left. discriminate.
Defined.

(** C4 as worded fails: [os_private] is a private run with 5
    positional arguments, which is not 6, and with the token; it is not
    rejected, it resolves and starts its tasks. *)
Lemma privateRunNeeds_6_counterexample : ~ privateRunNeeds 6 os_private.
Proof.
  intros H.
  destruct H as [Hexit _].
  - reflexivity.
  - right. right. cbn. lia.
  - vm_compute in Hexit. discriminate Hexit.
Qed.

(** ** One task per resolved URL, and the barrier *)


Section TasksAndBarrier.

Import Sched.

Variable os : OS.



End TasksAndBarrier.


